(** * Survey platform backend: dataset ingestion, response submission and
      CSV export

    A shallow embedding of the request handlers of [main.py]
    ([upload_dataset], [submit_response], [export_csv]) together with the
    record types of [schemas.py] they rely on, and the properties of the
    handlers that the specification states.

    Conventions.
    - Python [dict]s are insertion-ordered; they are association lists
      ([PyDict]) whose [set] overwrites in place and appends new keys.
    - [csv.reader] is the tokenizer of the Python standard library; the
      handlers are modelled from the list of records it yields.
    - The document store is an explicit value threaded through the handlers
      that write to it. *)

From Stdlib Require Import List String Ascii Bool Arith ZArith Lia Permutation.
Import ListNotations.
Local Open Scope string_scope.
Local Open Scope list_scope.

Set Implicit Arguments.

(** ** Lists: first occurrences *)

Section FirstOccurrences.
Variable A : Type.
Variable eq_dec : forall x y : A, {x = y} + {x <> y}.

Definition differs (x y : A) : bool := if eq_dec x y then false else true.

Definition mem (x : A) (l : list A) : bool := if in_dec eq_dec x l then true else false.

(** The values of a list, each kept at its first occurrence only. *)
Fixpoint first_occurrences (l : list A) : list A :=
  match l with
  | [] => []
  | x :: xs => x :: filter (differs x) (first_occurrences xs)
  end.

(** [if v not in acc: acc.append(v)] *)
Definition append_if_new (acc : list A) (v : A) : list A :=
  if mem v acc then acc else acc ++ [v].

Definition extend (acc : list A) (l : list A) : list A :=
  fold_left append_if_new l acc.

End FirstOccurrences.

(** ** Insertion-ordered dictionaries *)

Module PyDict.
Section Dict.
Variables K V : Type.
Variable eq_dec : forall x y : K, {x = y} + {x <> y}.

Definition t := list (K * V).

(** [d.get(k)], with [None] for an absent key. *)
Fixpoint get (k : K) (d : t) : option V :=
  match d with
  | [] => None
  | (k', v) :: d' => if eq_dec k k' then Some v else get k d'
  end.

(** [d[k] = v]: an existing key keeps its position, a new key goes last. *)
Fixpoint set (k : K) (v : V) (d : t) : t :=
  match d with
  | [] => [(k, v)]
  | (k', v') :: d' =>
      if eq_dec k k' then (k', v) :: d' else (k', v') :: set k v d'
  end.

Definition keys (d : t) : list K := map fst d.

(** [dict(pairs)] and dict comprehensions: items are stored one by one. *)
Definition update (d : t) (pairs : list (K * V)) : t :=
  fold_left (fun acc kv => set (fst kv) (snd kv) acc) pairs d.

Definition from_pairs (pairs : list (K * V)) : t := update [] pairs.

End Dict.
End PyDict.

(** ** Strings *)

Module PyStr.
Local Open Scope string_scope.

(** [str.lower] on the ASCII letters.  A file name is held as its UTF-8
    bytes; the bytes of a non-ASCII character are all above 127 and no
    non-ASCII character lowers to one of the characters of ".csv", so the
    suffix test below is the one Python performs. *)
Definition lower_char (c : ascii) : ascii :=
  let n := nat_of_ascii c in
  if ((65 <=? n)%nat && (n <=? 90)%nat)%bool then ascii_of_nat (n + 32) else c.

Fixpoint lower (s : string) : string :=
  match s with
  | EmptyString => EmptyString
  | String c s' => String (lower_char c) (lower s')
  end.

(** [s.endswith(suffix)] *)
Fixpoint endswith (s suffix : string) : bool :=
  (s =? suffix)
  || match s with
     | EmptyString => false
     | String _ s' => endswith s' suffix
     end.

End PyStr.

(** ** HTTP failures *)

Record HTTPException := { status_code : Z; detail : string }.

Definition UnsupportedFormat : HTTPException :=
  {| status_code := 400; detail := "Only CSV supported in this version" |}.
Definition EmptyInput : HTTPException :=
  {| status_code := 400; detail := "No rows found in CSV" |}.
Definition InvalidId : HTTPException :=
  {| status_code := 400; detail := "Invalid ID" |}.
Definition SurveyNotFound : HTTPException :=
  {| status_code := 404; detail := "Survey not found" |}.
Definition AuthRequired : HTTPException :=
  {| status_code := 403; detail := "Authentication required" |}.
Definition RateLimited : HTTPException :=
  {| status_code := 429; detail := "Response limit reached" |}.

(** A pydantic [ValidationError] that no handler catches: the request
    ends with the server's [500]. *)
Definition ValidationError : HTTPException :=
  {| status_code := 500; detail := "Internal Server Error" |}.

(** ** [csv.DictReader] *)

Module Csv.

(** One record of [csv.reader]: the fields of a line. *)
Definition record := list string.

(** A value of a parsed row: a field, [None] (the [restval] of a short
    row), or the list of surplus fields of a long row. *)
Inductive cell :=
| Str (s : string)
| PyNone
| Rest (l : list string).

(** A key of a parsed row: a field name, or [None] (the [restkey] under
    which the surplus fields of a long row are stored). *)
Definition key := option string.

Definition key_eq_dec : forall x y : key, {x = y} + {x <> y}.
Proof. decide equality. apply string_dec. Defined.

Definition cell_eq_dec : forall x y : cell, {x = y} + {x <> y}.
Proof. decide equality; try apply (list_eq_dec string_dec). apply string_dec. Defined.

Definition row := PyDict.t key cell.

Definition get (k : key) (r : row) : option cell := PyDict.get key_eq_dec k r.
Definition set (k : key) (v : cell) (r : row) : row := PyDict.set key_eq_dec k v r.

(** The body of [DictReader.__next__] once a non-blank record is read:
    [d = dict(zip(fieldnames, row))], then the surplus goes under
    [restkey] or the missing names get [restval]. *)
Definition dict_row (fieldnames : record) (r : record) : row :=
  let d := PyDict.from_pairs key_eq_dec (combine (map Some fieldnames) (map Str r)) in
  let lf := List.length fieldnames in
  let lr := List.length r in
  if (lf <? lr)%nat then set None (Rest (skipn lf r)) d
  else if (lr <? lf)%nat then
    PyDict.update key_eq_dec d (map (fun name => (Some name, PyNone)) (skipn lr fieldnames))
  else d.

Definition blank (r : record) : bool :=
  match r with [] => true | _ => false end.

(** The records after the header that [DictReader] turns into rows: it
    skips the blank ones. *)
Definition data_rows (records : list record) : list record :=
  match records with
  | [] => []
  | _ :: rest => filter (fun r => negb (blank r)) rest
  end.

(** [list(csv.DictReader(f))]: the first record gives the field names. *)
Definition DictReader (records : list record) : list row :=
  match records with
  | [] => []
  | fieldnames :: _ => map (dict_row fieldnames) (data_rows records)
  end.

End Csv.

(** ** Dataset records of [schemas.py] *)

Module DatasetSchemas.
Import Csv.

Record DatasetVersion := {
  version : Z;
  filename : string;
  rows : nat;
  columns : list string;
  distincts : PyDict.t string (list string)
}.

(** [data: Dict[str, Any]]: the keys are strings, the values are free. *)
Record DatasetRow := {
  row_version : Z;
  data : PyDict.t string cell
}.

(** A value validated as [str]: [None] and lists are refused. *)
Definition as_str (v : cell) : option string :=
  match v with
  | Str s => Some s
  | PyNone => None
  | Rest _ => None
  end.

(** Validation of a list, item by item. *)
Fixpoint all_valid (A B : Type) (f : A -> option B) (l : list A) : option (list B) :=
  match l with
  | [] => Some []
  | x :: xs =>
      match f x, all_valid f xs with
      | Some y, Some ys => Some (y :: ys)
      | _, _ => None
      end
  end.

(** Validation of a dict whose keys must be strings: the key [None] is
    refused. *)
Definition str_keys (A B : Type) (f : A -> option B) (d : PyDict.t key A)
  : option (PyDict.t string B) :=
  all_valid (fun kv : key * A =>
               match fst kv, f (snd kv) with
               | Some name, Some v => Some (name, v)
               | _, _ => None
               end) d.

(** [DatasetVersion(version=1, filename=..., rows=..., columns=...,
    distincts=...)]: [columns: List[str]] and
    [distincts: Dict[str, List[str]]] are validated; nothing is returned
    when the validation raises. *)
Definition make_version (name : string) (n : nat) (cols : list key)
           (ds : PyDict.t key (list cell)) : option DatasetVersion :=
  match all_valid (fun c : key => c) cols, str_keys (all_valid as_str) ds with
  | Some cs, Some d =>
      Some {| version := 1; filename := name; rows := n; columns := cs; distincts := d |}
  | _, _ => None
  end.

(** [DatasetRow(dataset_id=..., version=1, data=r)] *)
Definition make_row (r : row) : option DatasetRow :=
  match str_keys (fun v : cell => Some v) r with
  | Some d => Some {| row_version := 1; data := d |}
  | None => None
  end.

End DatasetSchemas.

(** ** Dataset upload *)

Module Datasets.
Import Csv.

Definition distinct_map := PyDict.t key (list cell).

(** [r.get(c)] *)
Definition row_get (c : key) (r : row) : cell :=
  match get c r with
  | Some v => v
  | None => PyNone
  end.

Definition is_none (v : cell) : bool :=
  match v with PyNone => true | _ => false end.

(** [if v is not None and v not in distincts[c]: distincts[c].append(v)].
    Every column is a key of [distincts] (lemma [observe_keys] and
    [analyze_distinct_keys]), so the subscript cannot raise. *)
Definition observe (distincts : distinct_map) (c : key) (v : cell) : distinct_map :=
  match PyDict.get key_eq_dec c distincts with
  | Some seen =>
      if negb (is_none v) && negb (mem cell_eq_dec v seen)
      then PyDict.set key_eq_dec c (seen ++ [v]) distincts
      else distincts
  | None => distincts
  end.

Definition observe_row (columns : list key) (distincts : distinct_map) (r : row)
  : distinct_map :=
  fold_left (fun acc c => observe acc c (row_get c r)) columns distincts.

Record Analysis := {
  columns : list key;
  rowCount : nat;
  distincts : distinct_map
}.

(** Lines 117-123 and the fields of the returned body, for [rows] with
    first element [first]. *)
Definition analyze (first : row) (rows : list row) : Analysis :=
  let columns := PyDict.keys first in
  let distincts := PyDict.from_pairs key_eq_dec (map (fun c => (c, [])) columns) in
  {| columns := columns;
     rowCount := List.length rows;
     distincts := fold_left (observe_row columns) rows distincts |}.

Definition csv_filename (filename : string) : bool :=
  PyStr.endswith (PyStr.lower filename) ".csv".

(** [upload_dataset], from the declared file name and the records that
    [csv.reader] yields on the decoded content.  After the analysis the
    handler builds the [DatasetVersion] and then one [DatasetRow] per row;
    either construction raises when the schema refuses its argument, and
    the body is returned only when none does.  The documents written to
    the store in between are not represented. *)
Definition upload_dataset (filename : string) (records : list record)
  : HTTPException + Analysis :=
  if negb (csv_filename filename) then inl UnsupportedFormat
  else
    match DictReader records with
    | [] => inl EmptyInput
    | (first :: _) as rows =>
        let a := analyze first rows in
        match DatasetSchemas.make_version filename (rowCount a) (columns a) (distincts a) with
        | None => inl ValidationError
        | Some _ =>
            match DatasetSchemas.all_valid DatasetSchemas.make_row rows with
            | None => inl ValidationError
            | Some _ => inr a
            end
        end
    end.

End Datasets.

(** ** JSON values held in documents *)

Module Py.

#[local] Unset Elimination Schemes.

(** The values a field typed [Any] can hold once decoded from JSON or
    from the store (floating-point numbers are left out). *)
Inductive value :=
| PNone
| PBool (b : bool)
| PInt (n : Z)
| PStr (s : string)
| PList (items : list value)
| PDict (items : list (string * value)).

#[local] Set Elimination Schemes.

(** Truth value, as [or] and [not] test it. *)
Definition truthy (v : value) : bool :=
  match v with
  | PNone => false
  | PBool b => b
  | PInt n => negb (n =? 0)%Z
  | PStr s => negb (s =? EmptyString)
  | PList items => match items with [] => false | _ => true end
  | PDict items => match items with [] => false | _ => true end
  end.

(** [x or y] *)
Definition py_or (x y : value) : value := if truthy x then x else y.

Definition is_none (v : value) : bool :=
  match v with PNone => true | _ => false end.

(** An optional string field: [None] or a [str]. *)
Definition of_option (o : option string) : value :=
  match o with Some s => PStr s | None => PNone end.

(** Dictionary keys up to Python's key equality: a boolean is the key
    [0] or [1], as [True == 1] and [hash(True) == hash(1)]. *)
Inductive hkey :=
| KNone
| KNum (n : Z)
| KStr (s : string).

Definition hkey_eq_dec : forall x y : hkey, {x = y} + {x <> y}.
Proof. decide equality; [apply Z.eq_dec | apply string_dec]. Defined.

(** The key a value makes, or nothing when the value is unhashable (a
    list or a dict: storing under it raises [TypeError]). *)
Definition hash_key (v : value) : option hkey :=
  match v with
  | PNone => Some KNone
  | PBool b => Some (KNum (if b then 1 else 0))
  | PInt n => Some (KNum n)
  | PStr s => Some (KStr s)
  | PList _ => None
  | PDict _ => None
  end.

Definition hashable (v : value) : bool :=
  match hash_key v with Some _ => true | None => false end.

(** A JSON object, as a [dict] with string keys. *)
Definition object := PyDict.t string value.

(** [o.get(name)] *)
Definition field (name : string) (o : object) : value :=
  match PyDict.get string_dec name o with
  | Some v => v
  | None => PNone
  end.

End Py.

(** ** Records of [schemas.py]

    Only the fields the handlers read are kept; the others are stored and
    returned unchanged. *)

Module Schemas.

Record Question := {
  id : string;
  text : string;
  export_header : option string
}.

Record SurveySettings := {
  require_auth : bool;
  response_limit_per_user : option Z
}.

Record Survey := {
  questions : list Question;
  settings : SurveySettings
}.

Record SurveyResponse := {
  survey_id : string;
  answers : list Py.object;
  submitted_by : option string;
  anonymous : bool
}.

End Schemas.

(** ** The document store *)

Module Store.
Import Schemas.

(** A stored response: the submitted record and the creation time the
    store helper stamps on it, in its textual form. *)
Record ResponseDoc := {
  doc : SurveyResponse;
  created_at : string
}.

(** Modelled from the spec: the persistence collaborator ([database.py] is
    not among the sources).  Surveys are found by identifier; the list of
    responses holds what was stored, and a query returns its matches in
    the store's own order (see [find]). *)
Record db := {
  survey : PyDict.t string Survey;
  surveyresponse : list ResponseDoc
}.

(** Modelled from the spec: [findOne(collectionName, id)], a document or
    absent. *)
Definition find_one (d : db) (key : string) : option Survey :=
  PyDict.get string_dec key (survey d).

(** The stored responses whose [survey_id] field is [sid]. *)
Definition matching (d : db) (sid : string) : list ResponseDoc :=
  filter (fun r => (survey_id (doc r) =? sid)%string) (surveyresponse d).

(** The store returns the documents a query matches in an order of its
    own: [arrange] is that order, a rearrangement of what it is given. *)
Definition rearranges (arrange : list ResponseDoc -> list ResponseDoc) : Prop :=
  forall l, Permutation (arrange l) l.

(** Modelled from the spec: [queryRecords] on the responses of a survey,
    in the store's order. *)
Definition find (arrange : list ResponseDoc -> list ResponseDoc)
           (d : db) (sid : string) : list ResponseDoc :=
  arrange (matching d sid).

Definition same_submitter (a b : option string) : bool :=
  match a, b with
  | Some x, Some y => (x =? y)%string
  | None, None => true
  | _, _ => false
  end.

(** Modelled from the spec: [countRecords] with the filter
    [{survey_id, submitted_by}]. *)
Definition count_documents (d : db) (sid : string) (who : option string) : Z :=
  Z.of_nat
    (List.length
       (filter (fun r => same_submitter (submitted_by (doc r)) who)
               (matching d sid))).

(** Modelled from the spec: [createRecord(collectionName, document)]
    returning the generated identifier; [new_id] and [now] are the
    identifier and the time stamp the store assigns. *)
Definition create_document (d : db) (payload : SurveyResponse)
           (new_id now : string) : string * db :=
  (new_id,
   {| survey := survey d;
      surveyresponse :=
        surveyresponse d ++ [{| doc := payload; created_at := now |}] |}).

End Store.

(** ** Handlers on surveys and responses *)

Section Handlers.
Import Py Schemas Store.

(** [bson.ObjectId]: the identifier a string denotes, if it denotes one. *)
Variable ObjectId : string -> option string.

(** The order in which the store returns the responses of a query. *)
Variable arrange : list ResponseDoc -> list ResponseDoc.

Definition oid (id_str : string) : HTTPException + string :=
  match ObjectId id_str with
  | Some o => inr o
  | None => inl InvalidId
  end.

(** [db["survey"].find_one({"_id": oid(survey_id)})] followed by the
    [404] of a missing survey. *)
Definition get_survey (d : db) (sid : string) : HTTPException + Survey :=
  match oid sid with
  | inl e => inl e
  | inr key =>
      match find_one d key with
      | Some s => inr s
      | None => inl SurveyNotFound
      end
  end.

(** [limit and payload.submitted_by] *)
Definition limit_applies (limit : option Z) (who : option string) : bool :=
  (truthy (match limit with Some n => PInt n | None => PNone end)
   && truthy (of_option who))%bool.

(** [submit_response]; [new_id] and [now] are what the store assigns to
    the created document. *)
Definition submit_response (d : db) (sid : string) (payload : SurveyResponse)
           (new_id now : string) : (HTTPException + string) * db :=
  match get_survey d sid with
  | inl e => (inl e, d)
  | inr s =>
      let st := settings s in
      if (require_auth st
          && negb (truthy (of_option (submitted_by payload)))
          && negb (anonymous payload))%bool
      then (inl AuthRequired, d)
      else
        let limit := response_limit_per_user st in
        let create :=
          let '(resp_id, d') := create_document d payload new_id now in
          (inr resp_id, d') in
        if limit_applies limit (submitted_by payload) then
          let count := count_documents d sid (submitted_by payload) in
          match limit with
          | Some n => if (count >=? n)%Z then (inl RateLimited, d) else create
          | None => create
          end
        else create
  end.

(** *** CSV export *)

(** [q.get("export_header") or q.get("text") or q.get("id")] *)
Definition header_label (q : Question) : value :=
  py_or (py_or (of_option (export_header q)) (PStr (text q))) (PStr (id q)).

Definition meta_headers : list value :=
  [PStr "submitted_by"; PStr "anonymous"; PStr "created_at"].

(** The [headers] list: one [append] per question, then the [extend]. *)
Definition export_headers (qs : list Question) : list value :=
  fold_left (fun headers q => headers ++ [header_label q]) qs [] ++ meta_headers.

(** [a.get("questionId") or a.get("id") or a.get("text")] *)
Definition answer_key (a : object) : value :=
  py_or (py_or (field "questionId" a) (field "id" a)) (field "text" a).

Definition answer_map := PyDict.t hkey value.

(** The dict comprehension building [ans_map]; [None] is the [TypeError]
    of an unhashable key. *)
Definition ans_map (answers : list object) : option answer_map :=
  fold_left
    (fun acc a =>
       match acc with
       | None => None
       | Some m =>
           match hash_key (answer_key a) with
           | Some k => Some (PyDict.set hkey_eq_dec k (field "value" a) m)
           | None => None
           end
       end)
    answers (Some []).

(** [ans_map.get(name)] for a string [name]. *)
Definition map_get (m : answer_map) (name : string) : value :=
  match PyDict.get hkey_eq_dec (KStr name) m with
  | Some v => v
  | None => PNone
  end.

(** The cell of a question: by id first, then by text. *)
Definition cell_value (m : answer_map) (q : Question) : value :=
  let val := map_get m (id q) in
  let val := if is_none val then map_get m (text q) else val in
  if negb (is_none val) then val else PStr EmptyString.

Definition meta_cells (r : ResponseDoc) : list value :=
  [of_option (submitted_by (doc r)); PBool (anonymous (doc r)); PStr (created_at r)].

(** The [row] list handed to [writer.writerow] for one response. *)
Definition response_row (qs : list Question) (r : ResponseDoc) : option (list value) :=
  match ans_map (answers (doc r)) with
  | None => None
  | Some m =>
      Some (fold_left (fun row q => row ++ [cell_value m q]) qs [] ++ meta_cells r)
  end.

(** How the generator ends: exhausted, or stopped by an exception. *)
Inductive ending := Finished | Raised.

(** The chunks after the header chunk, one per response. *)
Fixpoint response_chunks (qs : list Question) (rs : list ResponseDoc)
  : list (list value) * ending :=
  match rs with
  | [] => ([], Finished)
  | r :: rs' =>
      match response_row qs r with
      | None => ([], Raised)
      | Some row =>
          let '(chunks, e) := response_chunks qs rs' in (row :: chunks, e)
      end
  end.

(** [iter_csv]: each chunk is the row written by one [writerow]. *)
Definition iter_csv (qs : list Question) (rs : list ResponseDoc)
  : list (list value) * ending :=
  let '(chunks, e) := response_chunks qs rs in
  (export_headers qs :: chunks, e).

(** [export_csv] *)
Definition export_csv (d : db) (sid : string)
  : HTTPException + (list (list value) * ending) :=
  match get_survey d sid with
  | inl e => inl e
  | inr s => inr (iter_csv (questions s) (find arrange d sid))
  end.

End Handlers.

(** ** Documents as open maps: listing, lookup and status handlers *)

Module Documents.

Definition DatasetNotFound : HTTPException :=
  {| status_code := 404; detail := "Dataset not found" |}.
Definition InvalidStatus : HTTPException :=
  {| status_code := 400; detail := "Invalid status" |}.

(** The defaults of [SurveySettings] in [schemas.py]. *)
Definition default_settings : Schemas.SurveySettings :=
  {| Schemas.require_auth := false; Schemas.response_limit_per_user := None |}.

Section Docs.

(** The values a stored field holds, with [None], [str(v)] and the
    embedding of a [str]. *)
Variable V : Type.
Variable py_none : V.
Variable py_str : V -> string.
Variable of_str : string -> V.

(** [bson.ObjectId], as for the other handlers. *)
Variable ObjectId : string -> option string.

(** A stored document: a [dict] from field names to values. *)
Definition doc := PyDict.t string V.

(** [d.get(k)] *)
Definition doc_get (k : string) (d : doc) : V :=
  match PyDict.get string_dec k d with
  | Some v => v
  | None => py_none
  end.

(** [d.pop(k, None)]: the key is gone afterwards. *)
Definition pop (k : string) (d : doc) : doc :=
  filter (fun kv => differs string_dec k (fst kv)) d.

(** [safe_obj]: an empty document is returned as it is; otherwise [id]
    becomes the text of [_id] and [_id] is dropped. *)
Definition safe_obj (d : doc) : doc :=
  match d with
  | [] => d
  | _ => pop "_id" (PyDict.set string_dec "id" (of_str (py_str (doc_get "_id" d))) d)
  end.

(** *** Listing handlers *)

(** [get_documents(collection_name, filter)] of the store helper, which is
    not among the sources. *)
Variable get_documents : string -> list (string * V) -> list doc.

(** [{"org_id": org_id} if org_id else {}] *)
Definition org_filter (org_id : option string) : list (string * V) :=
  match org_id with
  | Some s => if Py.truthy (Py.PStr s) then [("org_id", of_str s)] else []
  | None => []
  end.

Definition list_datasets (org_id : option string) : list doc :=
  map safe_obj (get_documents "dataset" (org_filter org_id)).

Definition list_surveys (org_id : option string) : list doc :=
  map safe_obj (get_documents "survey" (org_filter org_id)).

Definition list_responses (survey_id : string) : list doc :=
  map safe_obj (get_documents "surveyresponse" [("survey_id", of_str survey_id)]).

(** *** Lookup and update by identifier *)

(** Modelled from the spec: a collection of the persistence collaborator,
    from object identifiers to documents. *)
Definition collection := PyDict.t string doc.

(** Modelled from the spec: [findOne(collectionName, id)]. *)
Definition find_one (c : collection) (key : string) : option doc :=
  PyDict.get string_dec key c.

(** Modelled from the spec: [updateFields(collectionName, id, fields)] for
    one field, returning the matched count. *)
Definition update_one (c : collection) (key field : string) (v : V) : Z * collection :=
  match find_one c key with
  | Some d => (1%Z, PyDict.set string_dec key (PyDict.set string_dec field v d) c)
  | None => (0%Z, c)
  end.

(** [get_dataset]; [not doc] holds for a missing and for an empty
    document. *)
Definition get_dataset (c : collection) (dataset_id : string) : HTTPException + doc :=
  match oid ObjectId dataset_id with
  | inl e => inl e
  | inr key =>
      match find_one c key with
      | None => inl DatasetNotFound
      | Some [] => inl DatasetNotFound
      | Some d => inr (safe_obj d)
      end
  end.

(** [get_survey], the handler of [GET /api/surveys/{survey_id}]. *)
Definition get_survey (c : collection) (survey_id : string) : HTTPException + doc :=
  match oid ObjectId survey_id with
  | inl e => inl e
  | inr key =>
      match find_one c key with
      | None => inl SurveyNotFound
      | Some [] => inl SurveyNotFound
      | Some d => inr (safe_obj d)
      end
  end.

Definition allowed_status : list string := ["draft"; "active"; "closed"].

(** [set_survey_status]: the status is checked first, then the identifier
    is parsed, then the update is attempted. *)
Definition set_survey_status (c : collection) (survey_id status : string)
  : (HTTPException + string * string) * collection :=
  if negb (mem string_dec status allowed_status) then (inl InvalidStatus, c)
  else
    match oid ObjectId survey_id with
    | inl e => (inl e, c)
    | inr key =>
        let '(matched_count, c') := update_one c key "status" (of_str status) in
        if (matched_count =? 0)%Z then (inl SurveyNotFound, c')
        else (inr (survey_id, status), c')
    end.

End Docs.
End Documents.

(** * Properties *)

Unset Implicit Arguments.

(** ** First occurrences *)

Section FirstOccurrencesFacts.
Variable A : Type.
Variable eq_dec : forall x y : A, {x = y} + {x <> y}.

Local Abbreviation differs := (differs eq_dec).
Local Abbreviation mem := (mem eq_dec).
Local Abbreviation first_occurrences := (first_occurrences eq_dec).
Local Abbreviation append_if_new := (append_if_new eq_dec).
Local Abbreviation extend := (extend eq_dec).

Lemma mem_true_iff x l : mem x l = true <-> In x l.
Proof. unfold mem; destruct (in_dec eq_dec x l); split; intros; try easy. Qed.

Lemma mem_false_iff x l : mem x l = false <-> ~ In x l.
Proof. unfold mem; destruct (in_dec eq_dec x l); split; intros; try easy. Qed.

Lemma differs_true_iff x y : differs x y = true <-> x <> y.
Proof. unfold differs; destruct (eq_dec x y); split; intros; try easy. Qed.

Lemma filter_filter_comm (p q : A -> bool) l :
  filter p (filter q l) = filter q (filter p l).
Proof.
  induction l as [|a l IH]; simpl; auto.
  destruct (q a) eqn:Q, (p a) eqn:P; simpl; rewrite ?Q, ?P, IH; reflexivity.
Qed.

Lemma filter_absorb (p : A -> bool) x l :
  p x = false -> filter p (filter (differs x) l) = filter p l.
Proof.
  intros Px. induction l as [|a l IH]; simpl; auto.
  destruct (differs a a) eqn:E0.
  - apply differs_true_iff in E0; congruence.
  - destruct (differs x a) eqn:E; simpl.
    + now rewrite IH.
    + assert (x = a) by (unfold differs in E; destruct (eq_dec x a); congruence).
      subst a. now rewrite Px, IH.
Qed.

Lemma first_occurrences_filter (p : A -> bool) l :
  first_occurrences (filter p l) = filter p (first_occurrences l).
Proof.
  induction l as [|x xs IH]; simpl; auto.
  destruct (p x) eqn:Px; simpl.
  - now rewrite IH, filter_filter_comm.
  - now rewrite IH, filter_absorb.
Qed.

Lemma In_first_occurrences x l : In x (first_occurrences l) <-> In x l.
Proof.
  induction l as [|a l IH]; simpl; [tauto|].
  rewrite filter_In, IH, differs_true_iff.
  destruct (eq_dec a x); [tauto|]. intuition congruence.
Qed.

Lemma NoDup_filter (p : A -> bool) l : NoDup l -> NoDup (filter p l).
Proof.
  induction 1 as [|x l Hx Hl IH]; simpl; [constructor|].
  destruct (p x); auto. constructor; auto.
  rewrite filter_In; tauto.
Qed.

Lemma NoDup_first_occurrences l : NoDup (first_occurrences l).
Proof.
  induction l as [|x l IH]; simpl; constructor.
  - rewrite filter_In, differs_true_iff. intros [_ H]; congruence.
  - now apply NoDup_filter.
Qed.

Lemma first_occurrences_NoDup l : NoDup l -> first_occurrences l = l.
Proof.
  induction 1 as [|x l Hx Hl IH]; simpl; auto.
  rewrite IH. f_equal.
  clear IH Hl. induction l as [|a l IH]; simpl; auto.
  destruct (differs x a) eqn:E.
  - f_equal. apply IH. simpl in Hx; tauto.
  - exfalso. apply Hx. left.
    unfold differs in E; destruct (eq_dec x a); congruence.
Qed.

Lemma filter_notin_app acc x l :
  filter (fun y => negb (mem y (acc ++ [x]))) l =
  filter (differs x) (filter (fun y => negb (mem y acc)) l).
Proof.
  induction l as [|a l IH]; simpl; auto.
  destruct (mem a acc) eqn:M; simpl.
  - assert (mem a (acc ++ [x]) = true) as ->.
    { apply mem_true_iff, in_or_app. left. now apply mem_true_iff. }
    simpl. apply IH.
  - destruct (differs x a) eqn:E.
    + assert (mem a (acc ++ [x]) = false) as ->.
      { apply mem_false_iff. intros H. apply in_app_or in H.
        apply mem_false_iff in M. apply differs_true_iff in E.
        simpl in H. intuition congruence. }
      simpl. now rewrite IH.
    + assert (mem a (acc ++ [x]) = true) as ->.
      { apply mem_true_iff, in_or_app. right. left.
        unfold differs in E; destruct (eq_dec x a); congruence. }
      simpl. apply IH.
Qed.

(** The append-if-new loop computes first occurrences. *)
Lemma extend_spec acc l :
  extend acc l =
  acc ++ first_occurrences (filter (fun y => negb (mem y acc)) l).
Proof.
  unfold extend. revert acc.
  induction l as [|x xs IH]; intros acc; simpl.
  - now rewrite app_nil_r.
  - unfold append_if_new at 2. destruct (mem x acc) eqn:M; simpl.
    + apply IH.
    + rewrite IH, filter_notin_app, first_occurrences_filter, <- app_assoc.
      reflexivity.
Qed.

Lemma extend_nil l : extend [] l = first_occurrences l.
Proof.
  rewrite extend_spec. simpl. f_equal.
  induction l as [|a l IH]; simpl; congruence.
Qed.

Lemma append_if_new_idem acc v :
  append_if_new (append_if_new acc v) v = append_if_new acc v.
Proof.
  unfold append_if_new. destruct (mem v acc) eqn:M.
  - now rewrite M.
  - assert (mem v (acc ++ [v]) = true) as ->; auto.
    apply mem_true_iff, in_or_app. right. now left.
Qed.
End FirstOccurrencesFacts.

(** ** Dictionaries *)

Module PyDictFacts.
Section Facts.
Variables K V : Type.
Variable eq_dec : forall x y : K, {x = y} + {x <> y}.

Local Abbreviation t := (PyDict.t K V).
Local Abbreviation get := (@PyDict.get K V eq_dec).
Local Abbreviation set := (@PyDict.set K V eq_dec).
Local Abbreviation keys := (@PyDict.keys K V).
Local Abbreviation update := (@PyDict.update K V eq_dec).
Local Abbreviation from_pairs := (@PyDict.from_pairs K V eq_dec).

Lemma get_set_same k v d : get k (set k v d) = Some v.
Proof.
  induction d as [|[k' v'] d IH]; simpl.
  - destruct (eq_dec k k); congruence.
  - destruct (eq_dec k k') as [E|E]; simpl.
    + destruct (eq_dec k k'); congruence.
    + destruct (eq_dec k k'); congruence.
Qed.

Lemma get_set_other k k' v d : k <> k' -> get k' (set k v d) = get k' d.
Proof.
  intros N. induction d as [|[k0 v0] d IH]; simpl.
  - destruct (eq_dec k' k); congruence.
  - destruct (eq_dec k k0) as [E|E]; simpl.
    + subst. destruct (eq_dec k' k0); congruence.
    + destruct (eq_dec k' k0); congruence.
Qed.

Lemma get_set k k' v d :
  get k' (set k v d) = if eq_dec k k' then Some v else get k' d.
Proof.
  destruct (eq_dec k k') as [<-|N].
  - apply get_set_same.
  - now apply get_set_other.
Qed.

Lemma keys_set k v d :
  keys (set k v d) = append_if_new eq_dec (keys d) k.
Proof.
  unfold append_if_new, keys.
  induction d as [|[k' v'] d IH]; simpl; auto.
  destruct (eq_dec k k') as [E|E]; simpl.
  - subst. assert (mem eq_dec k' (k' :: map fst d) = true) as ->; auto.
    apply mem_true_iff. now left.
  - rewrite IH. destruct (mem eq_dec k (map fst d)) eqn:M.
    + assert (mem eq_dec k (k' :: map fst d) = true) as ->; auto.
      apply mem_true_iff. right. now apply mem_true_iff in M.
    + assert (mem eq_dec k (k' :: map fst d) = false) as ->; auto.
      apply mem_false_iff. apply mem_false_iff in M.
      simpl. intuition congruence.
Qed.

Lemma keys_update d pairs :
  keys (update d pairs) = extend eq_dec (keys d) (map fst pairs).
Proof.
  unfold update, extend. revert d.
  induction pairs as [|[k v] ps IH]; intros d; simpl; auto.
  now rewrite IH, keys_set.
Qed.

Lemma keys_from_pairs pairs :
  keys (from_pairs pairs) = first_occurrences eq_dec (map fst pairs).
Proof. unfold from_pairs. now rewrite keys_update, extend_nil. Qed.

Lemma get_In_keys k d : In k (keys d) <-> exists v, get k d = Some v.
Proof.
  unfold keys. induction d as [|[k' v'] d IH]; simpl.
  - split; [tauto | intros [v H]; discriminate].
  - destruct (eq_dec k k') as [E|E].
    + subst. split; eauto.
    + rewrite <- IH. intuition congruence.
Qed.

Lemma get_None_keys k d : get k d = None <-> ~ In k (keys d).
Proof.
  rewrite get_In_keys. destruct (get k d) as [v|]; split; intros H.
  - discriminate.
  - exfalso; apply H; eauto.
  - intros [v E]; discriminate.
  - reflexivity.
Qed.

(** In a sequence of stores the last one for a key wins. *)
Lemma get_update_app d pairs k v :
  get k (update d (pairs ++ [(k, v)])) = Some v.
Proof.
  unfold update. rewrite fold_left_app. simpl. apply get_set_same.
Qed.

Lemma get_update_other d pairs k :
  ~ In k (map fst pairs) -> get k (update d pairs) = get k d.
Proof.
  unfold update. revert d.
  induction pairs as [|[k' v'] ps IH]; intros d N; simpl in *; auto.
  rewrite IH by tauto. apply get_set_other. intuition congruence.
Qed.

Lemma update_cons d k v pairs :
  update d ((k, v) :: pairs) = update (set k v d) pairs.
Proof. reflexivity. Qed.

(** Storing the same value under several keys. *)
Lemma get_update_const d pairs k v :
  (forall kv, In kv pairs -> snd kv = v) ->
  In k (map fst pairs) ->
  get k (update d pairs) = Some v.
Proof.
  revert d. induction pairs as [|[k' v'] ps IH]; intros d Hv Hk; [destruct Hk|].
  rewrite update_cons.
  destruct (in_dec eq_dec k (map fst ps)) as [I|I].
  - apply IH; auto. intros kv H. apply Hv. now right.
  - rewrite get_update_other by assumption.
    destruct Hk as [E|E]; [|contradiction]. simpl in E. subst k'.
    rewrite get_set_same. f_equal. apply (Hv (k, v')). now left.
Qed.
End Facts.
End PyDictFacts.

(** ** File names *)

Module PyStrFacts.
Import PyStr.
Local Open Scope string_scope.

Lemma endswith_unfold s suffix :
  endswith s suffix =
  ((s =? suffix)
   || match s with
      | EmptyString => false
      | String _ s' => endswith s' suffix
      end)%bool.
Proof. destruct s; reflexivity. Qed.

Lemma endswith_iff s suffix :
  endswith s suffix = true <-> exists stem, s = stem ++ suffix.
Proof.
  induction s as [|c s IH]; rewrite endswith_unfold.
  - rewrite orb_false_r, String.eqb_eq. split.
    + intros <-. now exists EmptyString.
    + intros [[|c stem] E]; simpl in E; congruence.
  - rewrite orb_true_iff, String.eqb_eq, IH. split.
    + intros [<-|[stem ->]].
      * now exists EmptyString.
      * now exists (String c stem).
    + intros [[|c' stem] E]; simpl in E.
      * now left.
      * right. exists stem. congruence.
Qed.

Lemma lower_app a b : lower (a ++ b) = lower a ++ lower b.
Proof. induction a as [|c a IH]; simpl; congruence. Qed.

Lemma lower_app_inv s a b :
  lower s = a ++ b -> exists s1 s2, s = s1 ++ s2 /\ lower s1 = a /\ lower s2 = b.
Proof.
  revert s. induction a as [|c a IH]; intros s E; simpl in E.
  - exists EmptyString, s. auto.
  - destruct s as [|c' s]; simpl in E; [discriminate|].
    injection E as Ec Es. destruct (IH _ Es) as (s1 & s2 & -> & <- & <-).
    exists (String c' s1), s2. simpl. now rewrite Ec.
Qed.

End PyStrFacts.

(** ** Parsed rows *)

Module CsvFacts.
Import Csv.

Lemma first_occurrences_Some (l : list string) :
  first_occurrences key_eq_dec (map Some l) = map Some (first_occurrences string_dec l).
Proof.
  induction l as [|x l IH]; simpl; auto.
  rewrite IH. f_equal.
  generalize (first_occurrences string_dec l) as m. intros m.
  induction m as [|y m IHm]; [reflexivity|]. cbn [map filter].
  assert (differs key_eq_dec (Some x) (Some y) = differs string_dec x y) as ->.
  { unfold differs.
    destruct (key_eq_dec (Some x) (Some y)), (string_dec x y); congruence. }
  rewrite IHm. now destruct (differs string_dec x y).
Qed.

Lemma map_fst_combine (A B : Type) (l : list A) (l' : list B) :
  map fst (combine l l') = firstn (List.length l') l.
Proof.
  revert l'. induction l as [|a l IH]; intros [|b l']; simpl; auto.
  now rewrite IH.
Qed.

Lemma extend_app (A : Type) (dec : forall x y : A, {x = y} + {x <> y}) acc l1 l2 :
  extend dec acc (l1 ++ l2) = extend dec (extend dec acc l1) l2.
Proof. unfold extend. apply fold_left_app. Qed.

Lemma In_firstn (A : Type) n (l : list A) x : In x (firstn n l) -> In x l.
Proof. intros H. rewrite <- (firstn_skipn n l). apply in_or_app. now left. Qed.

Lemma In_skipn (A : Type) n (l : list A) x : In x (skipn n l) -> In x l.
Proof. intros H. rewrite <- (firstn_skipn n l). apply in_or_app. now right. Qed.

Definition zipped (fieldnames r : record) : row :=
  PyDict.from_pairs key_eq_dec (combine (map Some fieldnames) (map Str r)).

Lemma keys_zipped fieldnames r :
  PyDict.keys (zipped fieldnames r) =
  extend key_eq_dec [] (map Some (firstn (List.length r) fieldnames)).
Proof.
  unfold zipped, PyDict.from_pairs. rewrite PyDictFacts.keys_update. simpl.
  now rewrite map_fst_combine, length_map, firstn_map.
Qed.

Lemma restkey_fresh fieldnames r : ~ In None (PyDict.keys (zipped fieldnames r)).
Proof.
  rewrite keys_zipped, extend_nil, In_first_occurrences, in_map_iff.
  intros (x & E & _). discriminate.
Qed.

(** The keys of a parsed row: the field names at their first occurrence,
    then [None] when the record is longer than the header. *)
Lemma dict_row_keys fieldnames r :
  PyDict.keys (dict_row fieldnames r) =
  map Some (first_occurrences string_dec fieldnames)
  ++ (if (List.length fieldnames <? List.length r)%nat then [None] else []).
Proof.
  unfold dict_row. fold (zipped fieldnames r).
  destruct (List.length fieldnames <? List.length r)%nat eqn:L.
  - apply Nat.ltb_lt in L. unfold set. rewrite PyDictFacts.keys_set.
    unfold append_if_new.
    assert (mem key_eq_dec None (PyDict.keys (zipped fieldnames r)) = false) as ->.
    { apply mem_false_iff, restkey_fresh. }
    rewrite keys_zipped, extend_nil, firstn_all2 by lia.
    now rewrite first_occurrences_Some.
  - apply Nat.ltb_ge in L.
    destruct (List.length r <? List.length fieldnames)%nat eqn:S.
    + rewrite PyDictFacts.keys_update, keys_zipped, map_map. simpl.
      rewrite <- extend_app, <- map_app, firstn_skipn, extend_nil.
      now rewrite first_occurrences_Some, app_nil_r.
    + apply Nat.ltb_ge in S.
      rewrite keys_zipped, extend_nil, firstn_all2 by lia.
      now rewrite first_occurrences_Some, app_nil_r.
Qed.

Lemma dict_row_keys_NoDup fieldnames r : NoDup (PyDict.keys (dict_row fieldnames r)).
Proof.
  rewrite dict_row_keys.
  assert (N : NoDup (map Some (first_occurrences string_dec fieldnames))).
  { rewrite <- first_occurrences_Some. apply NoDup_first_occurrences. }
  destruct (List.length fieldnames <? List.length r)%nat.
  - apply NoDup_app; auto.
    + constructor; [intros []|constructor].
    + intros x Hx [<-|[]]. apply in_map_iff in Hx. destruct Hx as (? & ? & _). discriminate.
  - now rewrite app_nil_r.
Qed.

(** A name that [zip] pairs exactly once holds its field. *)
Lemma zipped_get fieldnames r i name :
  NoDup fieldnames ->
  nth_error fieldnames i = Some name ->
  (i < List.length r)%nat ->
  get (Some name) (zipped fieldnames r) = option_map Str (nth_error r i).
Proof.
  unfold zipped, PyDict.from_pairs, get.
  intros N. revert r i.
  enough (G : forall (d : row) r i,
             nth_error fieldnames i = Some name -> (i < List.length r)%nat ->
             PyDict.get key_eq_dec (Some name)
               (PyDict.update key_eq_dec d (combine (map Some fieldnames) (map Str r)))
             = option_map Str (nth_error r i)).
  { intros r i. apply G. }
  induction N as [|x l Hx Hl IH]; intros d r i Hi Hlt.
  - destruct i; discriminate.
  - destruct r as [|f r]; [simpl in Hlt; lia|].
    destruct i as [|i]; simpl in Hi |- *.
    + injection Hi as ->. unfold PyDict.update in *. 
      change (fold_left _ ?ps ?acc) with (PyDict.update key_eq_dec acc ps).
      rewrite PyDictFacts.get_update_other.
      * apply PyDictFacts.get_set_same.
      * rewrite map_fst_combine, length_map, firstn_map, in_map_iff.
        intros (y & E & Hy). injection E as ->.
        apply Hx. eapply In_firstn; eauto.
    + apply IH; auto. simpl in Hlt. lia.
Qed.

Lemma nth_error_not_in_skipn (A : Type) (l : list A) i n x :
  NoDup l -> nth_error l i = Some x -> (i < n)%nat -> ~ In x (skipn n l).
Proof.
  intros N. revert i n. induction N as [|a l Ha Hl IH]; intros i n Hi Hlt.
  - destruct i; discriminate.
  - destruct n as [|n]; [lia|]. simpl. destruct i as [|i]; simpl in Hi.
    + injection Hi as ->. intros H. apply Ha. eapply In_skipn; eauto.
    + apply (IH i); auto. lia.
Qed.

(** X27.  A parsed row is keyed by the header's column names, each once,
    in header order.  A record with fewer fields than the header maps
    every trailing column to [None].  A record with more fields than the
    header keeps the surplus fields: they are stored, as a list, under the
    additional key [None].  When the header has no repeated name, each
    column that has a field maps to that field. *)
Theorem dict_row_short_and_long (fieldnames r : record) :
  PyDict.keys (dict_row fieldnames r) =
    map Some (first_occurrences string_dec fieldnames)
    ++ (if (List.length fieldnames <? List.length r)%nat then [None] else [])
  /\ (forall name, In name (skipn (List.length r) fieldnames) ->
      get (Some name) (dict_row fieldnames r) = Some PyNone)
  /\ ((List.length fieldnames < List.length r)%nat ->
      get None (dict_row fieldnames r) = Some (Rest (skipn (List.length fieldnames) r)))
  /\ (NoDup fieldnames ->
      forall i name, nth_error fieldnames i = Some name -> (i < List.length r)%nat ->
      get (Some name) (dict_row fieldnames r) = option_map Str (nth_error r i)).
Proof.
  split; [apply dict_row_keys|].
  unfold dict_row, get, set. fold (zipped fieldnames r).
  destruct (List.length fieldnames <? List.length r)%nat eqn:L;
    [apply Nat.ltb_lt in L | apply Nat.ltb_ge in L].
  - repeat split.
    + intros name H. rewrite skipn_all2 in H by lia. destruct H.
    + intros _. apply PyDictFacts.get_set_same.
    + intros N i name Hi Hlt. rewrite PyDictFacts.get_set_other by discriminate.
      now apply zipped_get.
  - destruct (List.length r <? List.length fieldnames)%nat eqn:S;
      [apply Nat.ltb_lt in S | apply Nat.ltb_ge in S]; repeat split; try lia.
    + intros name H. apply PyDictFacts.get_update_const.
      * intros kv Hkv. apply in_map_iff in Hkv. now destruct Hkv as (n & <- & _).
      * rewrite map_map. simpl. now apply in_map.
    + intros N i name Hi Hlt. rewrite PyDictFacts.get_update_other.
      * now apply zipped_get.
      * rewrite map_map, in_map_iff. simpl. intros (n & E & Hn). injection E as ->.
        revert Hn. now apply nth_error_not_in_skipn with (i := i).
    + intros name H. rewrite skipn_all2 in H by lia. destruct H.
    + intros N i name Hi Hlt. now apply zipped_get.
Qed.

Lemma dict_row_short_and_long_witness :
  get (Some "b") (dict_row ["a"; "b"] ["1"]) = Some PyNone
  /\ get None (dict_row ["a"] ["1"; "2"]) = Some (Rest ["2"])
  /\ get (Some "a") (dict_row ["a"; "b"] ["1"]) = Some (Str "1").
Proof.
  split; [|split].
  - apply (proj1 (proj2 (dict_row_short_and_long ["a"; "b"] ["1"]))).
    simpl. now left.
  - apply (proj1 (proj2 (proj2 (dict_row_short_and_long ["a"] ["1"; "2"])))).
    simpl. lia.
  - apply (proj2 (proj2 (proj2 (dict_row_short_and_long ["a"; "b"] ["1"]))) 
             ltac:(repeat constructor; simpl; intuition discriminate) 0%nat "a").
    + reflexivity.
    + simpl. lia.
Defined.

(** The surplus field of a long record stays in the row under the key
    [None], which is not a header column. *)
Lemma long_row_keeps_surplus :
  dict_row ["a"] ["1"; "2"] = [(Some "a", Str "1"); (None, Rest ["2"])]
  /\ ~ (forall k, In k (PyDict.keys (dict_row ["a"] ["1"; "2"])) -> In k (map Some ["a"]))
  /\ dict_row ["a"] ["1"; "2"] <> dict_row ["a"] ["1"].
Proof.
  split; [reflexivity|split].
  - intros H. specialize (H None). simpl in H.
    destruct H as [H|[]]; [now right; left | discriminate].
  - discriminate.
Qed.

End CsvFacts.

(** ** Dataset upload *)

Module DatasetFacts.
Import Csv Datasets CsvFacts.

(** What one observation does to the list of a column. *)
Definition note (seen : list cell) (v : cell) : list cell :=
  if (negb (is_none v) && negb (mem cell_eq_dec v seen))%bool then seen ++ [v] else seen.

Definition present (v : cell) : bool := negb (is_none v).

Lemma note_idem seen v : note (note seen v) v = note seen v.
Proof.
  unfold note. destruct (is_none v); simpl; auto.
  destruct (mem cell_eq_dec v seen) eqn:M; simpl.
  - now rewrite M.
  - assert (mem cell_eq_dec v (seen ++ [v]) = true) as ->; auto.
    apply mem_true_iff, in_or_app. right. now left.
Qed.

Lemma fold_note vals acc :
  fold_left note vals acc = extend cell_eq_dec acc (filter present vals).
Proof.
  unfold extend. revert acc. induction vals as [|v vs IH]; intros acc; simpl; auto.
  rewrite IH. unfold note, present, append_if_new.
  destruct (is_none v); simpl; auto.
  now destruct (mem cell_eq_dec v acc).
Qed.

Lemma observe_get d c v c' :
  PyDict.get key_eq_dec c' (observe d c v) =
  if key_eq_dec c c'
  then option_map (fun seen => note seen v) (PyDict.get key_eq_dec c d)
  else PyDict.get key_eq_dec c' d.
Proof.
  unfold observe, note.
  destruct (PyDict.get key_eq_dec c d) as [seen|] eqn:G.
  - destruct (negb (is_none v) && negb (mem cell_eq_dec v seen))%bool eqn:C.
    + rewrite PyDictFacts.get_set. destruct (key_eq_dec c c'); simpl; now rewrite ?C.
    + destruct (key_eq_dec c c'); simpl; rewrite ?C; congruence.
  - destruct (key_eq_dec c c'); simpl; congruence.
Qed.

Lemma observe_keys d c v : PyDict.keys (observe d c v) = PyDict.keys d.
Proof.
  unfold observe. destruct (PyDict.get key_eq_dec c d) as [seen|] eqn:G; auto.
  destruct (negb (is_none v) && negb (mem cell_eq_dec v seen))%bool; auto.
  rewrite PyDictFacts.keys_set. unfold append_if_new.
  assert (mem key_eq_dec c (PyDict.keys d) = true) as ->; auto.
  apply mem_true_iff. apply (PyDictFacts.get_In_keys _ _ key_eq_dec). eauto.
Qed.

Lemma observe_row_get cs d r c :
  PyDict.get key_eq_dec c (observe_row cs d r) =
  if mem key_eq_dec c cs
  then option_map (fun seen => note seen (row_get c r)) (PyDict.get key_eq_dec c d)
  else PyDict.get key_eq_dec c d.
Proof.
  unfold observe_row. revert d. induction cs as [|c0 cs IH]; intros d; simpl; auto.
  rewrite IH, observe_get.
  destruct (key_eq_dec c0 c) as [->|N].
  - assert (mem key_eq_dec c (c :: cs) = true) as ->
      by (apply mem_true_iff; now left).
    destruct (mem key_eq_dec c cs); auto.
    destruct (PyDict.get key_eq_dec c d); simpl; auto.
    now rewrite note_idem.
  - assert (mem key_eq_dec c (c0 :: cs) = mem key_eq_dec c cs) as ->; auto.
    unfold mem. destruct (in_dec key_eq_dec c (c0 :: cs)) as [I|I],
      (in_dec key_eq_dec c cs) as [J|J]; auto; exfalso.
    + destruct I; congruence.
    + apply I. now right.
Qed.

Lemma observe_row_keys cs d r : PyDict.keys (observe_row cs d r) = PyDict.keys d.
Proof.
  unfold observe_row. revert d. induction cs as [|c cs IH]; intros d; simpl; auto.
  now rewrite IH, observe_keys.
Qed.

Lemma observe_rows_get cs rows d c :
  In c cs ->
  PyDict.get key_eq_dec c (fold_left (observe_row cs) rows d) =
  option_map (fun seen => fold_left note (map (row_get c) rows) seen)
             (PyDict.get key_eq_dec c d).
Proof.
  intros I. revert d. induction rows as [|r rows IH]; intros d; simpl.
  - now destruct (PyDict.get key_eq_dec c d).
  - rewrite IH, observe_row_get.
    assert (mem key_eq_dec c cs = true) as -> by now apply mem_true_iff.
    now destruct (PyDict.get key_eq_dec c d).
Qed.

Lemma empty_lists_get cs c :
  In c cs ->
  PyDict.get key_eq_dec c
    (PyDict.from_pairs key_eq_dec (map (fun c : key => (c, @nil cell)) cs)) = Some [].
Proof.
  intros I. apply PyDictFacts.get_update_const.
  - intros kv H. apply in_map_iff in H. now destruct H as (x & <- & _).
  - rewrite map_map. simpl. now rewrite map_id.
Qed.

(** The distinct list of a column after the analysis of [rows]. *)
Lemma analyze_distincts first rows c :
  In c (PyDict.keys first) ->
  PyDict.get key_eq_dec c (distincts (analyze first rows)) =
  Some (first_occurrences cell_eq_dec (filter present (map (row_get c) rows))).
Proof.
  intros I. unfold analyze. simpl.
  rewrite observe_rows_get, empty_lists_get by assumption. simpl.
  now rewrite fold_note, extend_nil.
Qed.

(** The keys of [distincts] are the columns, so [distincts[c]] is always
    defined in the analysis loop. *)
Lemma analyze_distinct_keys first rows :
  NoDup (PyDict.keys first) ->
  PyDict.keys (distincts (analyze first rows)) = columns (analyze first rows).
Proof.
  intros N. unfold analyze. simpl.
  assert (K : forall d, PyDict.keys (fold_left (observe_row (PyDict.keys first)) rows d)
                        = PyDict.keys d).
  { induction rows as [|r rs IH]; intros d; simpl; auto.
    now rewrite IH, observe_row_keys. }
  rewrite K, PyDictFacts.keys_from_pairs, map_map. simpl. rewrite map_id.
  now apply first_occurrences_NoDup.
Qed.

(** A file name ends in the extension [.csv], in any letter case. *)
Definition has_csv_extension (filename : string) : Prop :=
  exists stem ext, filename = (stem ++ ext)%string /\ PyStr.lower ext = ".csv".

Lemma csv_filename_iff filename :
  csv_filename filename = true <-> has_csv_extension filename.
Proof.
  unfold csv_filename, has_csv_extension. rewrite PyStrFacts.endswith_iff. split.
  - intros [stem E]. apply PyStrFacts.lower_app_inv in E.
    destruct E as (s1 & s2 & -> & _ & E). eauto.
  - intros (stem & ext & -> & E). exists (PyStr.lower stem).
    now rewrite PyStrFacts.lower_app, E.
Qed.

Lemma DictReader_cons fieldnames rest :
  DictReader (fieldnames :: rest) = map (dict_row fieldnames) (data_rows (fieldnames :: rest)).
Proof. reflexivity. Qed.

Lemma DictReader_length records :
  List.length (DictReader records) = List.length (data_rows records).
Proof. destruct records; simpl; auto. apply length_map. Qed.

(** *** What the schema accepts *)

(** A record has no more fields than the header. *)
Definition fits (fieldnames r : record) : Prop :=
  (List.length r <= List.length fieldnames)%nat.

Lemma all_valid_defined (A B : Type) (f : A -> option B) (l : list A) :
  DatasetSchemas.all_valid f l <> None <-> Forall (fun x => f x <> None) l.
Proof.
  induction l as [|x l IH]; simpl.
  - split; [constructor | discriminate].
  - destruct (f x) as [y|] eqn:E.
    + destruct (DatasetSchemas.all_valid f l) as [ys|].
      * split; [|discriminate]. intros _. constructor; [congruence|].
        apply IH. discriminate.
      * split; [congruence|]. intros H. inversion H; subst. tauto.
    + split; [congruence|]. intros H. inversion H; subst. congruence.
Qed.

Lemma str_keys_defined (A B : Type) (f : A -> option B) (d : PyDict.t key A) :
  DatasetSchemas.str_keys f d <> None <->
  Forall (fun kv => fst kv <> None /\ f (snd kv) <> None) d.
Proof.
  unfold DatasetSchemas.str_keys.
  etransitivity; [apply all_valid_defined|].
  split; apply Forall_impl; intros [k v]; simpl.
  - destruct k, (f v); intuition congruence.
  - intros [Hk Hv]. destruct k, (f v); congruence.
Qed.

Lemma get_In (A : Type) (k : key) (v : A) (d : PyDict.t key A) :
  PyDict.get key_eq_dec k d = Some v -> In (k, v) d.
Proof.
  induction d as [|[k0 v0] d IH]; simpl; [discriminate|].
  destruct (key_eq_dec k k0) as [<-|N].
  - intros [= <-]. now left.
  - intros H. right. auto.
Qed.

Lemma In_get_NoDup (A : Type) (k : key) (v : A) (d : PyDict.t key A) :
  NoDup (PyDict.keys d) -> In (k, v) d -> PyDict.get key_eq_dec k d = Some v.
Proof.
  induction d as [|[k0 v0] d IH]; simpl; intros N I; [destruct I|].
  inversion N as [|? ? Hk Hd]; subst.
  destruct I as [[= <- <-]|I].
  - now destruct (key_eq_dec k0 k0).
  - destruct (key_eq_dec k k0) as [->|_]; auto.
    exfalso. apply Hk. change k0 with (fst (k0, v)). now apply in_map.
Qed.

Lemma In_set (A : Type) (k k' : key) (v v' : A) (d : PyDict.t key A) :
  In (k, v) (PyDict.set key_eq_dec k' v' d) -> (k, v) = (k', v') \/ In (k, v) d.
Proof.
  induction d as [|[k0 v0] d IH]; simpl.
  - intros [H|[]]. left. congruence.
  - destruct (key_eq_dec k' k0) as [->|N]; simpl.
    + intros [H|H]; [left; congruence | tauto].
    + intros [H|H]; [tauto|]. destruct (IH H); tauto.
Qed.

Lemma In_update (A : Type) (k : key) (v : A) (d : PyDict.t key A) pairs :
  In (k, v) (PyDict.update key_eq_dec d pairs) -> In (k, v) pairs \/ In (k, v) d.
Proof.
  revert d. induction pairs as [|[k0 v0] ps IH]; intros d; [simpl; tauto|].
  rewrite PyDictFacts.update_cons. intros H. apply IH in H.
  destruct H as [H|H]; [left; now right|].
  apply In_set in H. destruct H as [H|H]; [left; left; congruence | tauto].
Qed.

(** Under a field name a parsed row holds a field or [None], never the
    surplus list. *)
Lemma named_value fieldnames r name v :
  In (Some name, v) (dict_row fieldnames r) -> v = PyNone \/ exists s, v = Str s.
Proof.
  assert (Z : In (Some name, v) (zipped fieldnames r) -> exists s, v = Str s).
  { unfold zipped, PyDict.from_pairs. intros H. apply In_update in H.
    destruct H as [H|[]]. apply in_combine_r, in_map_iff in H.
    destruct H as (s & <- & _). eauto. }
  unfold dict_row, set. fold (zipped fieldnames r).
  destruct (List.length fieldnames <? List.length r)%nat.
  - intros H. apply In_set in H. destruct H as [H|H]; [discriminate | auto].
  - destruct (List.length r <? List.length fieldnames)%nat; auto.
    intros H. apply In_update in H. destruct H as [H|H]; auto.
    apply in_map_iff in H. destruct H as (n & [= _ <-] & _). now left.
Qed.

Lemma named_keys fieldnames r :
  fits fieldnames r <-> ~ In None (PyDict.keys (dict_row fieldnames r)).
Proof.
  unfold fits. rewrite dict_row_keys, in_app_iff.
  destruct (List.length fieldnames <? List.length r)%nat eqn:L;
    [apply Nat.ltb_lt in L | apply Nat.ltb_ge in L].
  - split; [lia|]. intros H. exfalso. apply H. right. now left.
  - split; auto. intros _ [H|[]]. apply in_map_iff in H.
    destruct H as (x & E & _). discriminate.
Qed.

Lemma make_row_defined fieldnames r :
  DatasetSchemas.make_row (dict_row fieldnames r) <> None <-> fits fieldnames r.
Proof.
  rewrite named_keys. unfold DatasetSchemas.make_row.
  assert (E : DatasetSchemas.str_keys (fun v : cell => Some v) (dict_row fieldnames r)
              <> None <-> ~ In None (PyDict.keys (dict_row fieldnames r))).
  { rewrite str_keys_defined, Forall_forall. unfold PyDict.keys. split.
    - intros H I. apply in_map_iff in I. destruct I as ([k v] & Ek & I).
      simpl in Ek. subst k. now destruct (H _ I).
    - intros H [k v] I. simpl. split; [|discriminate]. intros ->.
      apply H. change None with (fst (@None string, v)). now apply in_map. }
  rewrite <- E.
  destruct (DatasetSchemas.str_keys _ _); split; intros; congruence.
Qed.

Lemma rows_defined fieldnames rs :
  DatasetSchemas.all_valid DatasetSchemas.make_row (map (dict_row fieldnames) rs) <> None
  <-> Forall (fits fieldnames) rs.
Proof.
  rewrite all_valid_defined, Forall_map. split; apply Forall_impl; intros r;
    apply make_row_defined.
Qed.

Lemma version_defined name fieldnames first rs :
  fits fieldnames first ->
  let a := analyze (dict_row fieldnames first) (map (dict_row fieldnames) rs) in
  DatasetSchemas.make_version name (rowCount a) (columns a) (distincts a) <> None.
Proof.
  intros F a.
  assert (C : Forall (fun c : key => c <> None) (columns a)).
  { apply Forall_forall. intros c I ->. now apply (named_keys fieldnames first). }
  assert (K : PyDict.keys (distincts a) = columns a).
  { apply analyze_distinct_keys, dict_row_keys_NoDup. }
  assert (D : Forall (fun kv : key * list cell =>
                        fst kv <> None
                        /\ DatasetSchemas.all_valid DatasetSchemas.as_str (snd kv) <> None)
                     (distincts a)).
  { apply Forall_forall. intros [k l] I. simpl.
    assert (Ik : In k (columns a)).
    { rewrite <- K. change k with (fst (k, l)). now apply in_map. }
    split; [intros ->; now apply (named_keys fieldnames first)|].
    apply In_get_NoDup in I; [|rewrite K; apply dict_row_keys_NoDup].
    unfold a in I. rewrite analyze_distincts in I by exact Ik. injection I as <-.
    apply all_valid_defined, Forall_forall. intros v Hv.
    apply In_first_occurrences, filter_In in Hv. destruct Hv as [Hv P].
    apply in_map_iff in Hv. destruct Hv as (pr & <- & Hpr).
    apply in_map_iff in Hpr. destruct Hpr as (r & <- & _).
    destruct k as [n|]; [|exfalso; now apply (named_keys fieldnames first)].
    unfold row_get in *.
    destruct (get (Some n) (dict_row fieldnames r)) as [v|] eqn:G; [|discriminate].
    apply get_In, named_value in G. destruct G as [->|[s ->]]; discriminate. }
  apply all_valid_defined in C. apply str_keys_defined in D.
  unfold DatasetSchemas.make_version.
  destruct (DatasetSchemas.all_valid _ (columns a)); [|congruence].
  destruct (DatasetSchemas.str_keys _ (distincts a)); [discriminate|congruence].
Qed.

(** A file whose data rows all fit the header is accepted. *)
Lemma upload_accepts filename fieldnames rest first others :
  csv_filename filename = true ->
  data_rows (fieldnames :: rest) = first :: others ->
  Forall (fits fieldnames) (first :: others) ->
  upload_dataset filename (fieldnames :: rest)
  = inr (analyze (dict_row fieldnames first)
                 (map (dict_row fieldnames) (first :: others))).
Proof.
  intros Y D F. unfold upload_dataset. rewrite Y. cbn [negb].
  rewrite DictReader_cons, D. cbn [map].
  change (dict_row fieldnames first :: map (dict_row fieldnames) others)
    with (map (dict_row fieldnames) (first :: others)).
  cbv zeta.
  pose proof (version_defined filename fieldnames first (first :: others)
                (Forall_inv F)) as V. cbv zeta in V.
  apply rows_defined in F.
  destruct (DatasetSchemas.make_version _ _ _ _); [|congruence].
  destruct (DatasetSchemas.all_valid _ _); [reflexivity|congruence].
Qed.

(** A data row with more fields than the header makes the upload raise. *)
Lemma upload_refuses filename fieldnames rest first others :
  csv_filename filename = true ->
  data_rows (fieldnames :: rest) = first :: others ->
  ~ Forall (fits fieldnames) (first :: others) ->
  upload_dataset filename (fieldnames :: rest) = inl ValidationError.
Proof.
  intros Y D F. unfold upload_dataset. rewrite Y. cbn [negb].
  rewrite DictReader_cons, D. cbn [map].
  change (dict_row fieldnames first :: map (dict_row fieldnames) others)
    with (map (dict_row fieldnames) (first :: others)).
  cbv zeta. rewrite <- rows_defined in F.
  destruct (DatasetSchemas.make_version _ _ _ _); [|reflexivity].
  destruct (DatasetSchemas.all_valid _ _); [|reflexivity].
  exfalso. apply F. discriminate.
Qed.

Lemma upload_returns filename records res :
  upload_dataset filename records = inr res ->
  exists fieldnames rest first others,
    records = fieldnames :: rest
    /\ data_rows records = first :: others
    /\ Forall (fits fieldnames) (first :: others)
    /\ res = analyze (dict_row fieldnames first)
                     (map (dict_row fieldnames) (first :: others)).
Proof.
  intros U.
  assert (Y : csv_filename filename = true).
  { unfold upload_dataset in U. destruct (csv_filename filename); [auto|discriminate]. }
  destruct records as [|fieldnames rest].
  { unfold upload_dataset in U. rewrite Y in U. discriminate. }
  destruct (data_rows (fieldnames :: rest)) as [|first others] eqn:D.
  { unfold upload_dataset in U. rewrite Y, DictReader_cons, D in U. discriminate. }
  exists fieldnames, rest, first, others.
  assert (F : Forall (fits fieldnames) (first :: others)).
  { apply rows_defined. intros E.
    rewrite (upload_refuses filename fieldnames rest first others Y D) in U;
      [discriminate|]. intros F. apply rows_defined in F. contradiction. }
  rewrite (upload_accepts filename fieldnames rest first others Y D F) in U.
  injection U as <-. auto.
Qed.



(** A file whose second data row has one field more than the header. *)
Definition long_second_row : list record :=
  [["a"; "b"]; ["1"; "2"]; ["3"; "4"; "5"]].

(** C7, at a failing input.  The file name ends in [.csv] and the content
    has two data rows, so neither guard applies; yet the upload does not
    give the analysis: the second data row has more fields than the
    header, its parsed row holds the key [None], and building its
    [DatasetRow] raises. *)
Theorem upload_raises_after_the_guards :
  has_csv_extension "data.csv"
  /\ List.length (data_rows long_second_row) = 2%nat
  /\ upload_dataset "data.csv" long_second_row = inl ValidationError
  /\ upload_dataset "data.csv" long_second_row <> inl UnsupportedFormat
  /\ upload_dataset "data.csv" long_second_row <> inl EmptyInput
  /\ (forall res, upload_dataset "data.csv" long_second_row <> inr res).
Proof.
  split; [apply csv_filename_iff; reflexivity|].
  repeat split; discriminate.
Qed.

(** C8, at a failing input.  The record has one field more than the
    header: the parsed row keeps the surplus field under the key [None]
    instead of dropping it, so it differs from the row parsed without the
    surplus, and the upload of the file raises on that key instead of
    going on without the field. *)
Theorem surplus_field_is_kept_and_raises :
  dict_row ["a"] ["1"; "2"] = [(Some "a", Str "1"); (None, Rest ["2"])]
  /\ dict_row ["a"] ["1"; "2"] <> dict_row ["a"] ["1"]
  /\ upload_dataset "data.csv" [["a"]; ["1"; "2"]] = inl ValidationError
  /\ upload_dataset "data.csv" [["a"]; ["1"; "2"]]
     <> upload_dataset "data.csv" [["a"]; ["1"]].
Proof. repeat split; discriminate. Qed.

(** C1 (as amended).  For a file with at least one data row, none of them
    with more fields than the header, the upload returns the number of
    data rows, and its columns are the header's names in their original
    left-to-right order, a repeated name being kept at its first
    occurrence only; so the columns are the header itself when no name is
    repeated. *)
Theorem upload_row_count_and_columns
        (filename : string) (fieldnames : record) (rest : list record)
        (first : record) (others : list record) :
  has_csv_extension filename ->
  data_rows (fieldnames :: rest) = first :: others ->
  Forall (fits fieldnames) (first :: others) ->
  exists res,
    upload_dataset filename (fieldnames :: rest) = inr res
    /\ rowCount res = List.length (data_rows (fieldnames :: rest))
    /\ columns res = map Some (first_occurrences string_dec fieldnames)
    /\ (NoDup fieldnames -> columns res = map Some fieldnames).
Proof.
  intros Y D F. apply csv_filename_iff in Y.
  rewrite (upload_accepts filename fieldnames rest first others Y D F).
  eexists. split; [reflexivity|].
  assert (C : PyDict.keys (dict_row fieldnames first)
              = map Some (first_occurrences string_dec fieldnames)).
  { rewrite dict_row_keys. apply Forall_inv in F. unfold fits in F.
    apply Nat.ltb_ge in F. rewrite F. apply app_nil_r. }
  split; [|split].
  - unfold analyze. cbn [rowCount]. now rewrite length_map, D.
  - exact C.
  - intros N. unfold analyze. cbn [columns]. rewrite C.
    now rewrite first_occurrences_NoDup.
Qed.

Lemma upload_row_count_and_columns_witness :
  exists res,
    upload_dataset "people.csv" [["name"; "age"]; ["Alice"; "30"]; ["Bob"; "25"]] = inr res
    /\ rowCount res = 2%nat
    /\ columns res = [Some "name"; Some "age"].
Proof.
  destruct (upload_row_count_and_columns "people.csv" ["name"; "age"]
              [["Alice"; "30"]; ["Bob"; "25"]] ["Alice"; "30"] [["Bob"; "25"]])
    as (res & U & R & C & _).
  - apply csv_filename_iff. reflexivity.
  - reflexivity.
  - repeat constructor.
  - exists res. repeat split; assumption.
Defined.

(** C1 (as stated) fails, in two ways.  With the header [a,a] the
    returned columns are [a] alone, not the header row.  And a file whose
    data row has more fields than the header has a data row, yet the
    upload returns nothing: it raises. *)
Lemma stated_columns_fail :
  (exists res,
     upload_dataset "data.csv" [["a"; "a"]; ["1"; "2"]] = inr res
     /\ rowCount res = 1%nat
     /\ columns res = [Some "a"]
     /\ columns res <> map Some ["a"; "a"])
  /\ (List.length (data_rows [["a"]; ["1"; "2"]]) = 1%nat
      /\ forall res, upload_dataset "data.csv" [["a"]; ["1"; "2"]] <> inr res).
Proof.
  split.
  - eexists. split; [reflexivity|]. simpl. repeat split. discriminate.
  - split; [reflexivity | discriminate].
Qed.

(** C2.  For every column the upload returns, the distinct list holds no
    value twice, holds exactly the non-null values the rows have in that
    column, and lists them in the order of their first occurrence. *)
Theorem upload_distincts (filename : string) (records : list record) (res : Analysis) :
  upload_dataset filename records = inr res ->
  forall c, In c (columns res) ->
  exists l,
    PyDict.get key_eq_dec c (distincts res) = Some l
    /\ NoDup l
    /\ (forall v, In v l <->
                  v <> PyNone /\ exists r, In r (DictReader records) /\ row_get c r = v)
    /\ l = first_occurrences cell_eq_dec
             (filter present (map (row_get c) (DictReader records))).
Proof.
  intros U c I.
  destruct (upload_returns filename records res U)
    as (fieldnames & rest & first & others & -> & D & _ & ->).
  rewrite DictReader_cons, D.
  exists (first_occurrences cell_eq_dec
            (filter present
               (map (row_get c) (map (dict_row fieldnames) (first :: others))))).
  split; [now apply analyze_distincts|].
  split; [apply NoDup_first_occurrences|]. split; [|reflexivity].
  intros v. rewrite In_first_occurrences, filter_In, in_map_iff. unfold present.
  split.
  - intros [(r & <- & Hr) P]. split; eauto.
    intros E. now rewrite E in P.
  - intros [P (r & Hr & <-)]. split; eauto.
    destruct (row_get c r); simpl; congruence.
Qed.

Definition sample_letters : list record := [["x"]; ["a"]; ["b"]; ["a"]; ["c"]].

Lemma upload_distincts_witness :
  exists l,
    PyDict.get key_eq_dec (Some "x")
      (distincts (analyze (dict_row ["x"] ["a"]) (DictReader sample_letters))) = Some l
    /\ NoDup l
    /\ (forall v, In v l <->
                  v <> PyNone
                  /\ exists r, In r (DictReader sample_letters) /\ row_get (Some "x") r = v)
    /\ l = first_occurrences cell_eq_dec
             (filter present (map (row_get (Some "x")) (DictReader sample_letters))).
Proof.
  apply (@upload_distincts "letters.csv" sample_letters).
  - reflexivity.
  - simpl. now left.
Defined.

(** The example of the specification: column values a, b, a, c. *)
Example distincts_a_b_a_c :
  option_map distincts
    (match upload_dataset "letters.csv" sample_letters with
     | inr res => Some res
     | inl _ => None
     end)
  = Some [(Some "x", [Str "a"; Str "b"; Str "c"])].
Proof. reflexivity. Qed.

End DatasetFacts.

(** ** Response submission *)

Module SubmissionFacts.
Import Py Schemas Store.

Section Policy.
Variable ObjectId : string -> option string.

(** The response names who submits it: a non-empty [submitted_by]. *)
Definition has_identity (p : SurveyResponse) : Prop :=
  exists who, submitted_by p = Some who /\ who <> EmptyString.

(** The responses already stored for the survey under the same
    [submitted_by]. *)
Definition prior_count (d : db) (sid : string) (p : SurveyResponse) : Z :=
  count_documents d sid (submitted_by p).

Definition auth_missing (s : Survey) (p : SurveyResponse) : Prop :=
  require_auth (settings s) = true /\ ~ has_identity p /\ anonymous p = false.

Definition over_limit (d : db) (sid : string) (s : Survey) (p : SurveyResponse) : Prop :=
  exists n, response_limit_per_user (settings s) = Some n /\ n <> 0%Z
            /\ has_identity p /\ (n <= prior_count d sid p)%Z.

Lemma truthy_identity p :
  truthy (of_option (submitted_by p)) = true <-> has_identity p.
Proof.
  unfold has_identity. destruct (submitted_by p) as [who|]; simpl.
  - rewrite negb_true_iff. split.
    + intros E. exists who. split; auto. intros ->. discriminate.
    + intros (w & [= <-] & N). now apply String.eqb_neq.
  - split; [discriminate | intros (w & E & _); discriminate].
Qed.

Lemma not_identity p :
  truthy (of_option (submitted_by p)) = false <-> ~ has_identity p.
Proof.
  rewrite <- truthy_identity. destruct (truthy _); split; congruence.
Qed.

Lemma limit_applies_iff limit p :
  limit_applies limit (submitted_by p) = true <->
  (exists n, limit = Some n /\ n <> 0%Z) /\ has_identity p.
Proof.
  unfold limit_applies. rewrite andb_true_iff, truthy_identity.
  destruct limit as [n|]; simpl.
  - rewrite negb_true_iff, Z.eqb_neq. split.
    + intros [N I]. eauto.
    + intros [(m & [= <-] & N) I]. auto.
  - split; [intros [? _]; discriminate | intros [(m & E & _) _]; discriminate].
Qed.

Lemma auth_missing_iff s p :
  (require_auth (settings s)
   && negb (truthy (of_option (submitted_by p)))
   && negb (anonymous p))%bool = true <-> auth_missing s p.
Proof.
  unfold auth_missing.
  rewrite !andb_true_iff, !negb_true_iff, not_identity. tauto.
Qed.

Lemma rejections_differ : AuthRequired <> RateLimited.
Proof. discriminate. Qed.

(** The three outcomes of [submit_response] on an existing survey. *)
Lemma submit_cases d sid payload new_id now s :
  get_survey ObjectId d sid = inr s ->
  (auth_missing s payload
   /\ submit_response ObjectId d sid payload new_id now = (inl AuthRequired, d))
  \/ (~ auth_missing s payload /\ over_limit d sid s payload
      /\ submit_response ObjectId d sid payload new_id now = (inl RateLimited, d))
  \/ (~ auth_missing s payload /\ ~ over_limit d sid s payload
      /\ submit_response ObjectId d sid payload new_id now =
         (inr new_id, snd (create_document d payload new_id now))).
Proof.
  intros G. unfold submit_response. rewrite G.
  destruct (_ && _ && _)%bool eqn:A.
  - left. split; auto. now apply auth_missing_iff.
  - right.
    assert (NA : ~ auth_missing s payload).
    { intros H. apply auth_missing_iff in H. congruence. }
    destruct (limit_applies _ _) eqn:L.
    + apply limit_applies_iff in L. destruct L as [(n & E & N) I].
      rewrite E. destruct (_ >=? n)%Z eqn:C.
      * left. repeat split; auto. exists n. repeat split; auto.
        unfold prior_count. lia.
      * right. repeat split; auto.
        intros (m & E' & _ & _ & Hm). rewrite E in E'. injection E' as <-.
        unfold prior_count in Hm. lia.
    + right.
      assert (NL : ~ over_limit d sid s payload).
      { intros (n & E & N & I & _).
        assert (limit_applies (response_limit_per_user (settings s))
                              (submitted_by payload) = true)
          by (apply limit_applies_iff; eauto).
        congruence. }
      destruct (response_limit_per_user (settings s)); repeat split; auto.
Qed.

(** C6 (as amended).  On an existing survey, the submission is rejected
    with [AuthRequired] exactly when [require_auth] is set, the response
    names no submitter and is not marked anonymous; otherwise it is
    rejected with [RateLimited] exactly when the settings give a non-zero
    [response_limit_per_user], the response names its submitter, and the
    stored responses whose [survey_id] field is the survey id string of
    the request and whose [submitted_by] is the response's number at least
    the limit; otherwise it is accepted and stored. *)
Theorem submission_policy d sid payload new_id now s :
  get_survey ObjectId d sid = inr s ->
  let outcome := fst (submit_response ObjectId d sid payload new_id now) in
  (outcome = inl AuthRequired <-> auth_missing s payload)
  /\ (outcome = inl RateLimited <->
      ~ auth_missing s payload /\ over_limit d sid s payload)
  /\ (outcome = inr new_id <->
      ~ auth_missing s payload /\ ~ over_limit d sid s payload)
  /\ (~ auth_missing s payload -> ~ over_limit d sid s payload ->
      surveyresponse (snd (submit_response ObjectId d sid payload new_id now)) =
      surveyresponse d ++ [{| doc := payload; created_at := now |}]).
Proof.
  intros G outcome. subst outcome.
  destruct (submit_cases d sid payload new_id now s G)
    as [[A E] | [(NA & L & E) | (NA & NL & E)]]; rewrite E; simpl.
  - unfold AuthRequired, RateLimited. intuition discriminate.
  - unfold AuthRequired, RateLimited. intuition discriminate.
  - unfold AuthRequired, RateLimited. intuition discriminate.
Qed.

(** C10.  When the survey's [response_limit_per_user] is unset or zero,
    or the response names no submitter, the submission is never rejected
    with [RateLimited], whatever the store holds. *)
Theorem rate_limit_skipped d sid payload new_id now s :
  get_survey ObjectId d sid = inr s ->
  response_limit_per_user (settings s) = None
  \/ response_limit_per_user (settings s) = Some 0%Z
  \/ ~ has_identity payload ->
  fst (submit_response ObjectId d sid payload new_id now) <> inl RateLimited.
Proof.
  intros G H R.
  destruct (submit_cases d sid payload new_id now s G)
    as [[A E] | [(NA & (n & L & N & I & _) & E) | (NA & NL & E)]];
    rewrite E in R; simpl in R; try discriminate.
  destruct H as [H | [H | H]]; [congruence | congruence | contradiction].
Qed.

End Policy.

Definition capped_survey (limit : option Z) : Survey :=
  {| questions := []; settings := {| require_auth := false; response_limit_per_user := limit |} |}.

Definition auth_survey : Survey :=
  {| questions := []; settings := {| require_auth := true; response_limit_per_user := None |} |}.

Definition by_user (sid : string) (who : option string) : SurveyResponse :=
  {| survey_id := sid; answers := []; submitted_by := who; anonymous := false |}.

(** A store with one survey and one response of "u1" to it. *)
Definition store_with (s : Survey) : db :=
  {| survey := [("s1", s)];
     surveyresponse := [{| doc := by_user "s1" (Some "u1"); created_at := "t0" |}] |}.

Lemma submission_policy_witness :
  fst (submit_response Some (store_with auth_survey) "s1" (by_user "s1" None) "r2" "t1")
  = inl AuthRequired
  /\ fst (submit_response Some (store_with (capped_survey (Some 1%Z))) "s1"
                           (by_user "s1" (Some "u1")) "r2" "t1")
     = inl RateLimited.
Proof.
  split.
  - apply (proj1 (submission_policy Some (store_with auth_survey) "s1"
                    (by_user "s1" None) "r2" "t1" auth_survey eq_refl)).
    split; [reflexivity|split; [|reflexivity]].
    intros (who & E & _). discriminate.
  - apply (proj1 (proj2 (submission_policy Some (store_with (capped_survey (Some 1%Z)))
                           "s1" (by_user "s1" (Some "u1")) "r2" "t1"
                           (capped_survey (Some 1%Z)) eq_refl))).
    split.
    + intros (E & _). discriminate.
    + exists 1%Z. split; [reflexivity|]. split; [discriminate|]. split.
      * exists "u1". split; [reflexivity|discriminate].
      * vm_compute. discriminate.
Defined.

Lemma rate_limit_skipped_witness :
  fst (submit_response Some (store_with (capped_survey (Some 0%Z))) "s1"
                       (by_user "s1" (Some "u1")) "r2" "t1")
  <> inl RateLimited.
Proof.
  apply (rate_limit_skipped Some (store_with (capped_survey (Some 0%Z))) "s1"
           (by_user "s1" (Some "u1")) "r2" "t1" (capped_survey (Some 0%Z)) eq_refl).
  right. left. reflexivity.
Defined.

(** The rate-limit condition in the words of the specification: a limit
    is specified, the response names its submitter, and the count of the
    submitter's stored responses has reached the limit. *)
Definition stated_over_limit (d : db) (sid : string) (s : Survey) (p : SurveyResponse)
  : Prop :=
  exists n, response_limit_per_user (settings s) = Some n
            /\ has_identity p /\ (n <= prior_count d sid p)%Z.

(** Two strings denote the same survey. *)
Definition same_survey (ObjectId : string -> option string) (a b : string) : bool :=
  match ObjectId a, ObjectId b with
  | Some x, Some y => (x =? y)%string
  | _, _ => false
  end.

(** The previously accepted responses of the submitter for the survey the
    request names, under whatever spelling of its identifier they were
    stored. *)
Definition previous_responses (ObjectId : string -> option string)
           (d : db) (sid : string) (p : SurveyResponse) : Z :=
  Z.of_nat
    (List.length
       (filter (fun r => (same_survey ObjectId (survey_id (doc r)) sid
                          && same_submitter (submitted_by (doc r)) (submitted_by p))%bool)
               (surveyresponse d))).

(** Identifiers up to letter case, as the hexadecimal spelling of an
    [ObjectId] is. *)
Definition any_case (s : string) : option string := Some (PyStr.lower s).

(** C6 (as stated) fails, in two ways.  With the limit set to 0 the stated
    condition for [RateLimited] holds (a limit is specified, the submitter
    is named, and one stored response is at least 0), yet the response is
    accepted.  And with the limit 1, a submitter who has one accepted
    response for the survey is accepted again when the request spells the
    survey's identifier in another letter case: the handler counts the
    stored responses whose [survey_id] is the request's string. *)
Lemma stated_limit_is_not_enforced :
  (~ auth_missing (capped_survey (Some 0%Z)) (by_user "s1" (Some "u1"))
   /\ stated_over_limit (store_with (capped_survey (Some 0%Z))) "s1"
                        (capped_survey (Some 0%Z)) (by_user "s1" (Some "u1"))
   /\ fst (submit_response Some (store_with (capped_survey (Some 0%Z))) "s1"
                           (by_user "s1" (Some "u1")) "r2" "t1") = inr "r2")
  /\ (get_survey any_case (store_with (capped_survey (Some 1%Z))) "S1"
      = inr (capped_survey (Some 1%Z))
      /\ previous_responses any_case (store_with (capped_survey (Some 1%Z))) "S1"
                            (by_user "s1" (Some "u1")) = 1%Z
      /\ prior_count (store_with (capped_survey (Some 1%Z))) "S1"
                     (by_user "s1" (Some "u1")) = 0%Z
      /\ fst (submit_response any_case (store_with (capped_survey (Some 1%Z))) "S1"
                              (by_user "s1" (Some "u1")) "r2" "t1") = inr "r2").
Proof.
  split.
  - split; [intros (E & _); discriminate|]. split; [|reflexivity].
    exists 0%Z. split; [reflexivity|]. split.
    + exists "u1". split; [reflexivity|discriminate].
    + vm_compute. discriminate.
  - repeat split.
Qed.

End SubmissionFacts.

(** ** CSV export *)

Module ExportFacts.
Import Py Schemas Store.

Lemma fold_append (A B : Type) (f : A -> B) (l : list A) (acc : list B) :
  fold_left (fun out x => out ++ [f x]) l acc = acc ++ map f l.
Proof.
  revert acc. induction l as [|x l IH]; intros acc; simpl.
  - now rewrite app_nil_r.
  - now rewrite IH, <- app_assoc.
Qed.

Lemma export_headers_map qs :
  export_headers qs = map header_label qs ++ meta_headers.
Proof. unfold export_headers. now rewrite fold_append. Qed.

(** A string field that is absent or empty. *)
Definition blank_field (o : option string) : Prop := o = None \/ o = Some EmptyString.

(** C5.  The header of each question's column, in the survey's order, is
    its [export_header] if non-empty, else its [text] if non-empty, else
    its [id]; the three fixed headers [submitted_by], [anonymous] and
    [created_at] follow the question columns. *)
Theorem export_header_labels (qs : list Question) :
  export_headers qs =
    map header_label qs ++ [PStr "submitted_by"; PStr "anonymous"; PStr "created_at"]
  /\ (forall i q, nth_error qs i = Some q ->
                  nth_error (export_headers qs) i = Some (header_label q))
  /\ (forall q,
        (forall h, export_header q = Some h -> h <> EmptyString -> header_label q = PStr h)
        /\ (blank_field (export_header q) -> text q <> EmptyString ->
            header_label q = PStr (text q))
        /\ (blank_field (export_header q) -> text q = EmptyString ->
            header_label q = PStr (id q))).
Proof.
  split; [apply export_headers_map|]. split.
  - intros i q H. rewrite export_headers_map, nth_error_app1.
    + now rewrite nth_error_map, H.
    + rewrite length_map. apply nth_error_Some. congruence.
  - intros q. unfold header_label, py_or. repeat split.
    + intros h -> N. apply String.eqb_neq in N. simpl. rewrite N. simpl.
      now rewrite N.
    + intros [-> | ->] N; apply String.eqb_neq in N; simpl; now rewrite N.
    + intros [-> | ->] E; simpl; rewrite E; reflexivity.
Qed.

Lemma export_header_labels_witness :
  header_label {| id := "q1"; text := "Full question"; export_header := Some "Q1" |}
  = PStr "Q1"
  /\ header_label {| id := "q2"; text := EmptyString; export_header := None |} = PStr "q2".
Proof.
  split.
  - refine (proj1 (proj2 (proj2 (export_header_labels []))
                     {| id := "q1"; text := "Full question"; export_header := Some "Q1" |})
              "Q1" eq_refl _).
    discriminate.
  - exact (proj2 (proj2 (proj2 (proj2 (export_header_labels []))
                           {| id := "q2"; text := EmptyString; export_header := None |}))
             (or_introl eq_refl) eq_refl).
Defined.

(** *** The answer lookup *)

Definition store_answer (acc : option answer_map) (a : object) : option answer_map :=
  match acc with
  | None => None
  | Some m =>
      match hash_key (answer_key a) with
      | Some k => Some (PyDict.set hkey_eq_dec k (field "value" a) m)
      | None => None
      end
  end.

Lemma ans_map_fold answers : ans_map answers = fold_left store_answer answers (Some []).
Proof. reflexivity. Qed.

Lemma store_answers_None answers : fold_left store_answer answers None = None.
Proof. induction answers; simpl; auto. Qed.

Lemma store_answers_app acc l1 l2 m :
  fold_left store_answer (l1 ++ l2) acc = Some m ->
  exists m1, fold_left store_answer l1 acc = Some m1
             /\ fold_left store_answer l2 (Some m1) = Some m.
Proof.
  rewrite fold_left_app. intros H.
  destruct (fold_left store_answer l1 acc) as [m1|]; eauto.
  rewrite store_answers_None in H. discriminate.
Qed.

(** Entries stored under other keys leave a key's value unchanged. *)
Lemma store_answers_other answers m0 m k :
  fold_left store_answer answers (Some m0) = Some m ->
  (forall b, In b answers -> hash_key (answer_key b) <> Some k) ->
  PyDict.get hkey_eq_dec k m = PyDict.get hkey_eq_dec k m0.
Proof.
  revert m0. induction answers as [|a l IH]; intros m0 H N; simpl in H.
  - congruence.
  - destruct (hash_key (answer_key a)) as [ka|] eqn:K.
    + rewrite (IH _ H) by (intros b Hb; apply N; now right).
      apply PyDictFacts.get_set_other. intros ->. apply (N a); [now left | assumption].
    + rewrite store_answers_None in H. discriminate.
Qed.

(** The lookup holds, for each key, the value of the last entry stored
    under that key. *)
Lemma ans_map_last_write before a after m k :
  ans_map (before ++ a :: after) = Some m ->
  hash_key (answer_key a) = Some k ->
  (forall b, In b after -> hash_key (answer_key b) <> Some k) ->
  PyDict.get hkey_eq_dec k m = Some (field "value" a).
Proof.
  rewrite ans_map_fold. intros H K N.
  apply store_answers_app in H. destruct H as (m1 & _ & H).
  simpl in H. rewrite K in H.
  rewrite (store_answers_other _ _ _ _ H N). apply PyDictFacts.get_set_same.
Qed.

Lemma ans_map_absent answers m k :
  ans_map answers = Some m ->
  (forall b, In b answers -> hash_key (answer_key b) <> Some k) ->
  PyDict.get hkey_eq_dec k m = None.
Proof.
  rewrite ans_map_fold. intros H N.
  now rewrite (store_answers_other _ _ _ _ H N).
Qed.

(** The lookup is built exactly when every entry's key is hashable. *)
Lemma ans_map_defined answers :
  (exists m, ans_map answers = Some m) <->
  (forall a, In a answers -> hashable (answer_key a) = true).
Proof.
  rewrite ans_map_fold. generalize (@nil (hkey * value)) as m0.
  induction answers as [|a l IH]; intros m0; simpl.
  - split; [intros _ a [] | eauto].
  - unfold hashable. destruct (hash_key (answer_key a)) as [k|] eqn:K.
    + rewrite IH. split.
      * intros H b [<-|Hb]; [now rewrite K | now apply H].
      * intros H b Hb. apply H. now right.
    + rewrite store_answers_None. split.
      * intros [m E]. discriminate.
      * intros H. specialize (H a (or_introl eq_refl)). rewrite K in H. discriminate.
Qed.

(** [x or y or z]: the first truthy operand, else the last one. *)
Lemma py_or_chain x y z :
  (truthy x = true -> py_or (py_or x y) z = x)
  /\ (truthy x = false -> truthy y = true -> py_or (py_or x y) z = y)
  /\ (truthy x = false -> truthy y = false -> py_or (py_or x y) z = z).
Proof.
  unfold py_or.
  destruct (truthy x) eqn:X; [rewrite X|];
    destruct (truthy y) eqn:Y; rewrite ?Y; repeat split; congruence.
Qed.

(** The key of an entry: [questionId] if it is truthy, else [id] if it is
    truthy, else [text]. *)
Lemma answer_key_cases a :
  (truthy (field "questionId" a) = true -> answer_key a = field "questionId" a)
  /\ (truthy (field "questionId" a) = false -> truthy (field "id" a) = true ->
      answer_key a = field "id" a)
  /\ (truthy (field "questionId" a) = false -> truthy (field "id" a) = false ->
      answer_key a = field "text" a).
Proof. apply py_or_chain. Qed.

(** *** Cells *)

(** A looked-up value, a null one counting as absent. *)
Definition known (o : option value) : option value :=
  match o with
  | Some PNone => None
  | other => other
  end.

(** The cell of a question as the export resolves it: the value stored
    under the question's id unless absent or null, else the value stored
    under the question's text unless absent or null, else the empty
    string. *)
Definition resolved_cell (m : answer_map) (q : Question) : value :=
  match known (PyDict.get hkey_eq_dec (KStr (id q)) m) with
  | Some v => v
  | None =>
      match known (PyDict.get hkey_eq_dec (KStr (text q)) m) with
      | Some v => v
      | None => PStr EmptyString
      end
  end.

(** The cell in the words of the specification: the value stored under
    the question's id, else (that key being absent) the value stored under
    the question's text, else the empty string. *)
Definition stated_cell (m : answer_map) (q : Question) : value :=
  match PyDict.get hkey_eq_dec (KStr (id q)) m with
  | Some v => v
  | None =>
      match PyDict.get hkey_eq_dec (KStr (text q)) m with
      | Some v => v
      | None => PStr EmptyString
      end
  end.

(** What the text lookup alone gives. *)
Definition text_fallback (m : answer_map) (q : Question) : value :=
  match known (PyDict.get hkey_eq_dec (KStr (text q)) m) with
  | Some v => v
  | None => PStr EmptyString
  end.

Lemma cell_value_resolved m q : cell_value m q = resolved_cell m q.
Proof.
  unfold cell_value, resolved_cell, map_get.
  destruct (PyDict.get hkey_eq_dec (KStr (id q)) m) as [[]|];
    destruct (PyDict.get hkey_eq_dec (KStr (text q)) m) as [[]|]; reflexivity.
Qed.

Lemma response_row_cells qs r m :
  ans_map (answers (doc r)) = Some m ->
  response_row qs r = Some (map (cell_value m) qs ++ meta_cells r).
Proof. intros E. unfold response_row. now rewrite E, fold_append. Qed.

(** C3 (as amended).  For a response whose lookup is built as [m]: each
    entry is stored under its [questionId] if truthy, else its [id] if
    truthy, else its [text]; a later entry overwrites an earlier one with
    the same key; and the cell of each question is the value stored under
    the question's id unless that is absent or null, else the value stored
    under the question's text unless that is absent or null, else the
    empty string. *)
Theorem export_cell_lookup (qs : list Question) (r : ResponseDoc) (m : answer_map) :
  ans_map (answers (doc r)) = Some m ->
  (forall a,
      (truthy (field "questionId" a) = true -> answer_key a = field "questionId" a)
      /\ (truthy (field "questionId" a) = false -> truthy (field "id" a) = true ->
          answer_key a = field "id" a)
      /\ (truthy (field "questionId" a) = false -> truthy (field "id" a) = false ->
          answer_key a = field "text" a))
  /\ (forall before a after k,
        answers (doc r) = before ++ a :: after ->
        hash_key (answer_key a) = Some k ->
        (forall b, In b after -> hash_key (answer_key b) <> Some k) ->
        PyDict.get hkey_eq_dec k m = Some (field "value" a))
  /\ (forall k,
        (forall b, In b (answers (doc r)) -> hash_key (answer_key b) <> Some k) ->
        PyDict.get hkey_eq_dec k m = None)
  /\ response_row qs r = Some (map (resolved_cell m) qs ++ meta_cells r)
  /\ (forall q,
        PyDict.get hkey_eq_dec (KStr (id q)) m = None ->
        PyDict.get hkey_eq_dec (KStr (text q)) m = None ->
        resolved_cell m q = PStr EmptyString).
Proof.
  intros E. split; [apply answer_key_cases|]. split; [|split; [|split]].
  - intros before a after k A K N. rewrite A in E.
    now apply (ans_map_last_write before a after).
  - intros k N. now apply (ans_map_absent (answers (doc r))).
  - rewrite (response_row_cells qs r m E). do 2 f_equal.
    apply map_ext. apply cell_value_resolved.
  - intros q I T. unfold resolved_cell. now rewrite I, T.
Qed.

Definition question_age : Question :=
  {| id := "q1"; text := "Age?"; export_header := None |}.

(** A response with a null answer under the question's id and an answer
    keyed by the question's text. *)
Definition shadowed_response : ResponseDoc :=
  {| doc := {| survey_id := "s1";
               answers := [[("questionId", PStr "q1"); ("value", PNone)];
                           [("text", PStr "Age?"); ("value", PStr "5")]];
               submitted_by := None;
               anonymous := true |};
     created_at := "t0" |}.

Definition shadowed_map : answer_map :=
  [(KStr "q1", PNone); (KStr "Age?", PStr "5")].

Lemma export_cell_lookup_witness :
  response_row [question_age] shadowed_response
  = Some (map (resolved_cell shadowed_map) [question_age] ++ meta_cells shadowed_response).
Proof.
  exact (proj1 (proj2 (proj2 (proj2
           (export_cell_lookup [question_age] shadowed_response shadowed_map eq_refl))))).
Defined.

(** C3 (as stated) fails: the id lookup is not absent, it holds a null
    value, and yet the export emits the value found under the question's
    text, not the lookup's value for the id. *)
Lemma null_answer_falls_through :
  ans_map (answers (doc shadowed_response)) = Some shadowed_map
  /\ PyDict.get hkey_eq_dec (KStr (id question_age)) shadowed_map = Some PNone
  /\ response_row [question_age] shadowed_response
     = Some [PStr "5"; PNone; PBool true; PStr "t0"]
  /\ stated_cell shadowed_map question_age = PNone
  /\ cell_value shadowed_map question_age <> stated_cell shadowed_map question_age.
Proof. repeat split. discriminate. Qed.

(** C9.  A lookup that holds a null value under the question's id gives
    the same cell as a lookup without that key: the result of the text
    lookup, or the empty string when that one is absent or null too.  So
    no cell is ever null, and an entry that is stored last under the
    question's id with a null or missing [value] leaves the cell to the
    text lookup. *)
Theorem null_answer_is_missing (m : answer_map) (q : Question) :
  (PyDict.get hkey_eq_dec (KStr (id q)) m = Some PNone
   \/ PyDict.get hkey_eq_dec (KStr (id q)) m = None ->
   cell_value m q = text_fallback m q)
  /\ cell_value m q <> PNone
  /\ (forall before a,
        ans_map (before ++ [a]) = Some m ->
        answer_key a = PStr (id q) ->
        PyDict.get string_dec "value" a = None
        \/ PyDict.get string_dec "value" a = Some PNone ->
        cell_value m q = text_fallback m q).
Proof.
  assert (F : PyDict.get hkey_eq_dec (KStr (id q)) m = Some PNone
              \/ PyDict.get hkey_eq_dec (KStr (id q)) m = None ->
              cell_value m q = text_fallback m q).
  { rewrite cell_value_resolved. unfold resolved_cell, text_fallback.
    now intros [-> | ->]. }
  split; [exact F|]. split.
  - rewrite cell_value_resolved. unfold resolved_cell, known.
    destruct (PyDict.get hkey_eq_dec (KStr (id q)) m) as [[]|];
      destruct (PyDict.get hkey_eq_dec (KStr (text q)) m) as [[]|]; discriminate.
  - intros before a E K V. apply F. left.
    rewrite (ans_map_last_write before a [] m (KStr (id q)) E).
    + unfold field. now destruct V as [-> | ->].
    + now rewrite K.
    + intros b [].
Qed.

Lemma null_answer_is_missing_witness :
  cell_value shadowed_map question_age = text_fallback shadowed_map question_age
  /\ cell_value [(KStr "q1", PNone)] question_age = PStr EmptyString.
Proof.
  split.
  - exact (proj1 (null_answer_is_missing shadowed_map question_age)
             (or_introl eq_refl)).
  - exact (proj1 (null_answer_is_missing [(KStr "q1", PNone)] question_age)
             (or_introl eq_refl)).
Defined.

(** The examples of the specification. *)
Example answer_by_question_id :
  option_map (fun m => cell_value m question_age)
             (ans_map [[("questionId", PStr "q1"); ("value", PStr "yes")]])
  = Some (PStr "yes").
Proof. reflexivity. Qed.

Example answer_by_text :
  option_map (fun m => cell_value m question_age)
             (ans_map [[("text", PStr "Age?"); ("value", PStr "41")]])
  = Some (PStr "41").
Proof. reflexivity. Qed.

Example answer_missing :
  option_map (fun m => cell_value m question_age)
             (ans_map [[("questionId", PStr "q7"); ("value", PStr "x")]])
  = Some (PStr EmptyString).
Proof. reflexivity. Qed.

(** *** The shape of the exported table *)

Definition hashable_keys (r : ResponseDoc) : Prop :=
  forall a, In a (answers (doc r)) -> hashable (answer_key a) = true.

Lemma response_row_length qs r row :
  response_row qs r = Some row -> List.length row = (List.length qs + 3)%nat.
Proof.
  unfold response_row. destruct (ans_map (answers (doc r))) as [m|]; [|discriminate].
  intros [= <-]. rewrite fold_append. simpl. now rewrite length_app, length_map.
Qed.

Lemma response_row_defined qs r :
  (exists row, response_row qs r = Some row) <-> hashable_keys r.
Proof.
  unfold hashable_keys. rewrite <- ans_map_defined. unfold response_row.
  destruct (ans_map (answers (doc r))) as [m|]; split; intros [x E]; eauto; discriminate.
Qed.

(** The header and every emitted row have one cell per question and three
    more, whether or not the generator runs to its end. *)
Lemma iter_csv_row_lengths qs rs :
  Forall (fun row => List.length row = (List.length qs + 3)%nat) (fst (iter_csv qs rs)).
Proof.
  unfold iter_csv.
  assert (H : Forall (fun row => List.length row = (List.length qs + 3)%nat)
                     (fst (response_chunks qs rs))).
  { induction rs as [|r rs IH]; simpl; [constructor|].
    destruct (response_row qs r) as [row|] eqn:R; simpl; [|constructor].
    destruct (response_chunks qs rs) as [chunks e]. simpl in *.
    constructor; auto. now apply (response_row_length qs r). }
  destruct (response_chunks qs rs) as [chunks e]. simpl in *.
  constructor; auto.
  now rewrite export_headers_map, length_app, length_map.
Qed.

(** When every answer key is hashable the generator runs to its end and
    yields the header and one row per response. *)
Lemma iter_csv_complete qs rs :
  Forall hashable_keys rs ->
  snd (iter_csv qs rs) = Finished
  /\ List.length (fst (iter_csv qs rs)) = (List.length rs + 1)%nat.
Proof.
  unfold iter_csv. intros H.
  assert (G : snd (response_chunks qs rs) = Finished
              /\ List.length (fst (response_chunks qs rs)) = List.length rs).
  { induction H as [|r rs Hr Hrs IH]; simpl; auto.
    apply response_row_defined with (qs := qs) in Hr. destruct Hr as [row ->].
    destruct (response_chunks qs rs) as [chunks e]. simpl in *.
    destruct IH as [-> ->]. auto. }
  destruct (response_chunks qs rs) as [chunks e]. simpl in *.
  destruct G as [-> ->]. split; auto. lia.
Qed.

(** A response whose first answer has a list as [questionId]. *)
Definition list_keyed_response : ResponseDoc :=
  {| doc := {| survey_id := "s1";
               answers := [[("questionId", PList [PStr "q1"]); ("value", PStr "yes")]];
               submitted_by := Some "u1";
               anonymous := false |};
     created_at := "t0" |}.

(** C4, at a failing input.  The stored answers of a response are open
    maps; one whose [questionId] is a list is an unhashable key for the
    lookup, the generator raises while building it, and the table stops
    after the header: one row for one response, not two. *)
Theorem export_stops_at_unhashable_key :
  ans_map (answers (doc list_keyed_response)) = None
  /\ iter_csv [question_age] [list_keyed_response]
     = ([[PStr "Age?"; PStr "submitted_by"; PStr "anonymous"; PStr "created_at"]], Raised)
  /\ List.length (fst (iter_csv [question_age] [list_keyed_response]))
     <> (List.length [list_keyed_response] + 1)%nat.
Proof. repeat split. discriminate. Qed.

End ExportFacts.

(** ** Documents: [safe_obj], listings, lookup and status *)

Module DocumentFacts.
Import Documents.

Section Facts.
Variable V : Type.
Variable py_none : V.
Variable py_str : V -> string.
Variable of_str : string -> V.
Variable ObjectId : string -> option string.
Variable get_documents : string -> list (string * V) -> list (doc V).

Local Abbreviation dget := (@PyDict.get string V string_dec).
Local Abbreviation dset := (@PyDict.set string V string_dec).
Local Abbreviation safe := (safe_obj py_none py_str of_str).
Local Abbreviation set_status := (set_survey_status of_str ObjectId).

Lemma pop_get k k' (d : doc V) :
  dget k' (pop k d) = if string_dec k k' then None else dget k' d.
Proof.
  unfold pop. induction d as [|[k0 v0] d IH]; simpl.
  - now destruct (string_dec k k').
  - unfold differs at 1. simpl. destruct (string_dec k k0) as [E|E]; simpl.
    + rewrite IH. subst k0. destruct (string_dec k k') as [E'|E']; auto.
      destruct (string_dec k' k); congruence.
    + rewrite IH. destruct (string_dec k' k0) as [E0|E0]; auto.
      subst k0. destruct (string_dec k k'); congruence.
Qed.

Lemma pop_keys k (d : doc V) :
  PyDict.keys (pop k d) = filter (differs string_dec k) (PyDict.keys d).
Proof.
  unfold pop, PyDict.keys. induction d as [|[k0 v0] d IH]; simpl; auto.
  destruct (differs string_dec k k0); simpl; now rewrite IH.
Qed.

Lemma safe_obj_nonempty (d : doc V) :
  d <> [] ->
  safe d = pop "_id" (dset "id" (of_str (py_str (doc_get py_none "_id" d))) d).
Proof. destruct d; [congruence | reflexivity]. Qed.

Lemma safe_obj_no_private_id (d : doc V) : dget "_id" (safe d) = None.
Proof.
  destruct d as [|kv d]; [reflexivity|].
  rewrite safe_obj_nonempty by discriminate. rewrite pop_get.
  now destruct (string_dec "_id" "_id").
Qed.

(** X1.  On a non-empty document [safe_obj] removes [_id], sets [id] to
    the text of the old [_id] value (overwriting a field [id] the document
    had), and leaves every other field as it was; [id] keeps its place if
    the document had one and goes last otherwise.  An empty document is
    returned unchanged. *)
Theorem safe_obj_fields (d : doc V) :
  safe [] = []
  /\ (d <> [] ->
      dget "_id" (safe d) = None
      /\ dget "id" (safe d) = Some (of_str (py_str (doc_get py_none "_id" d)))
      /\ (forall k, k <> "id" -> k <> "_id" -> dget k (safe d) = dget k d)
      /\ PyDict.keys (safe d) =
         filter (differs string_dec "_id")
                (append_if_new string_dec (PyDict.keys d) "id")).
Proof.
  split; [reflexivity|]. intros N. rewrite (safe_obj_nonempty d N).
  split; [|split; [|split]].
  - rewrite pop_get. now destruct (string_dec "_id" "_id").
  - rewrite pop_get. destruct (string_dec "_id" "id"); [discriminate|].
    apply PyDictFacts.get_set_same.
  - intros k N1 N2. rewrite pop_get.
    destruct (string_dec "_id" k); [congruence|].
    apply PyDictFacts.get_set_other. congruence.
  - now rewrite pop_keys, PyDictFacts.keys_set.
Qed.

(** X2.  A non-empty document without [_id] gets the text of [None] as
    its [id]; so applying [safe_obj] to its own result replaces the
    identifier by that text. *)
Theorem safe_obj_twice (d : doc V) :
  d <> [] ->
  (dget "_id" d = None -> dget "id" (safe d) = Some (of_str (py_str py_none)))
  /\ dget "id" (safe (safe d)) = Some (of_str (py_str py_none)).
Proof.
  intros N.
  assert (G : forall e : doc V, e <> [] -> dget "_id" e = None ->
                dget "id" (safe e) = Some (of_str (py_str py_none))).
  { intros e Ne H. rewrite (safe_obj_nonempty e Ne), pop_get.
    destruct (string_dec "_id" "id"); [discriminate|].
    rewrite PyDictFacts.get_set_same. unfold doc_get. now rewrite H. }
  split; [now apply G|]. apply G.
  - intros E.
    assert (H : dget "id" (safe d) = None) by now rewrite E.
    rewrite (safe_obj_nonempty d N), pop_get in H.
    destruct (string_dec "_id" "id"); [discriminate|].
    rewrite PyDictFacts.get_set_same in H. discriminate.
  - apply safe_obj_no_private_id.
Qed.

(** X3.  Each listing is the store's answer to one query, document by
    document and in the query's order, with [safe_obj] applied to each, so
    that no listed document has an [_id] field.  [list_datasets] and
    [list_surveys] query their collection with the empty filter when
    [org_id] is missing or empty, and for exactly the given [org_id]
    otherwise; [list_responses] queries the responses for exactly the
    given [survey_id]. *)
Theorem listings (org_id : option string) (survey_id : string) :
  let datasets := list_datasets py_none py_str of_str get_documents in
  let surveys := list_surveys py_none py_str of_str get_documents in
  let responses := list_responses py_none py_str of_str get_documents in
  (org_id = None \/ org_id = Some EmptyString ->
   datasets org_id = map safe (get_documents "dataset" [])
   /\ surveys org_id = map safe (get_documents "survey" []))
  /\ (forall s, org_id = Some s -> s <> EmptyString ->
        datasets org_id = map safe (get_documents "dataset" [("org_id", of_str s)])
        /\ surveys org_id = map safe (get_documents "survey" [("org_id", of_str s)]))
  /\ responses survey_id
     = map safe (get_documents "surveyresponse" [("survey_id", of_str survey_id)])
  /\ (forall d, In d (datasets org_id) \/ In d (surveys org_id)
                \/ In d (responses survey_id) -> dget "_id" d = None).
Proof.
  intros datasets surveys responses.
  subst datasets surveys responses. unfold list_datasets, list_surveys, list_responses.
  split; [|split; [|split]].
  - intros [-> | ->]; split; reflexivity.
  - intros s -> N. unfold org_filter. simpl.
    apply String.eqb_neq in N. rewrite N. split; reflexivity.
  - reflexivity.
  - intros d [H | [H | H]]; apply in_map_iff in H; destruct H as (e & <- & _);
      apply safe_obj_no_private_id.
Qed.

(** *** The status of a survey *)

Lemma dict_set_set (K W : Type) (dec : forall x y : K, {x = y} + {x <> y})
      (k : K) (v1 v2 : W) (d : PyDict.t K W) :
  PyDict.set dec k v2 (PyDict.set dec k v1 d) = PyDict.set dec k v2 d.
Proof.
  induction d as [|[k0 v0] d IH]; simpl.
  - now destruct (dec k k).
  - destruct (dec k k0) as [E|E]; simpl.
    + now destruct (dec k k0).
    + destruct (dec k k0); [congruence|]. now rewrite IH.
Qed.

Lemma keys_set_present (K W : Type) (dec : forall x y : K, {x = y} + {x <> y})
      (k : K) (v w : W) (d : PyDict.t K W) :
  PyDict.get dec k d = Some w -> PyDict.keys (PyDict.set dec k v d) = PyDict.keys d.
Proof.
  intros G. rewrite PyDictFacts.keys_set. unfold append_if_new.
  assert (mem dec k (PyDict.keys d) = true) as ->; auto.
  apply mem_true_iff. apply (PyDictFacts.get_In_keys _ _ dec). eauto.
Qed.

Lemma allowed_iff status :
  mem string_dec status allowed_status = true <-> In status allowed_status.
Proof. apply mem_true_iff. Qed.

Lemma set_status_found c sid status key d :
  In status allowed_status -> ObjectId sid = Some key -> find_one c key = Some d ->
  set_status c sid status =
  (inr (sid, status),
   PyDict.set string_dec key (dset "status" (of_str status) d) c).
Proof.
  intros A O F. unfold set_survey_status, oid, update_one.
  apply allowed_iff in A. now rewrite A, O, F.
Qed.

(** X4.  [set_survey_status] fails with [Invalid status] for every status
    other than draft, active and closed, whatever the identifier is; with
    an allowed status it fails with [Invalid ID] for a string that is no
    identifier and with [Survey not found] for an identifier nothing is
    stored under.  Every failure leaves the collection as it was. *)
Theorem set_status_failures c sid status :
  (~ In status allowed_status -> set_status c sid status = (inl InvalidStatus, c))
  /\ (In status allowed_status -> ObjectId sid = None ->
      set_status c sid status = (inl InvalidId, c))
  /\ (In status allowed_status ->
      forall key, ObjectId sid = Some key -> find_one c key = None ->
                  set_status c sid status = (inl SurveyNotFound, c))
  /\ (forall e, fst (set_status c sid status) = inl e ->
                snd (set_status c sid status) = c).
Proof.
  clear py_none py_str get_documents.
  unfold set_survey_status, oid, update_one.
  destruct (mem string_dec status allowed_status) eqn:A; cbn [negb].
  - apply allowed_iff in A. repeat split; try tauto.
    + intros _ ->. reflexivity.
    + intros _ key -> ->. reflexivity.
    + intros e. destruct (ObjectId sid) as [key|]; auto.
      destruct (find_one c key); simpl; [discriminate | auto].
  - assert (N : ~ In status allowed_status).
    { intros H. apply allowed_iff in H. congruence. }
    repeat split; tauto.
Qed.

(** X5.  With an allowed status and the identifier of a stored survey,
    [set_survey_status] answers with the identifier as it was given and
    the status, and stores the status in that survey's document: its
    other fields, the other documents and the order of the collection are
    unchanged, whatever status the survey had before. *)
Theorem set_status_effect c sid status key d :
  In status allowed_status -> ObjectId sid = Some key -> find_one c key = Some d ->
  exists c' d',
    set_status c sid status = (inr (sid, status), c')
    /\ find_one c' key = Some d'
    /\ dget "status" d' = Some (of_str status)
    /\ (forall f, f <> "status" -> dget f d' = dget f d)
    /\ (forall key', key' <> key -> find_one c' key' = find_one c key')
    /\ PyDict.keys c' = PyDict.keys c.
Proof.
  intros A O F. rewrite (set_status_found c sid status key d A O F).
  eexists. eexists. split; [reflexivity|]. unfold find_one.
  split; [apply PyDictFacts.get_set_same|].
  split; [apply PyDictFacts.get_set_same|].
  split; [|split].
  - intros f N. apply PyDictFacts.get_set_other. congruence.
  - intros key' N. apply PyDictFacts.get_set_other. congruence.
  - now apply keys_set_present with (w := d).
Qed.

(** X6.  Status changes compose by overwriting: setting one allowed status
    and then another succeeds and leaves the collection as setting the
    second alone does, so no earlier status blocks a later one. *)
Theorem set_status_twice c sid s1 s2 key d :
  In s1 allowed_status -> In s2 allowed_status ->
  ObjectId sid = Some key -> find_one c key = Some d ->
  set_status (snd (set_status c sid s1)) sid s2
  = (inr (sid, s2), snd (set_status c sid s2)).
Proof.
  intros A1 A2 O F.
  rewrite (set_status_found c sid s1 key d A1 O F).
  rewrite (set_status_found c sid s2 key d A2 O F). simpl.
  rewrite (set_status_found _ sid s2 key (dset "status" (of_str s1) d) A2 O)
    by apply PyDictFacts.get_set_same.
  now rewrite !dict_set_set.
Qed.

Lemma get_survey_found c sid key d :
  ObjectId sid = Some key -> find_one c key = Some d -> d <> [] ->
  get_survey py_none py_str of_str ObjectId c sid = inr (safe d).
Proof.
  intros O F N. unfold get_survey, oid. rewrite O, F.
  destruct d; [congruence | reflexivity].
Qed.

(** X7.  After a successful status change, [get_survey] through any
    spelling of the same identifier returns the survey with that status
    and without [_id]. *)
Theorem get_survey_after_set_status c sid sid' status key d :
  In status allowed_status -> ObjectId sid = Some key -> find_one c key = Some d ->
  ObjectId sid' = Some key ->
  exists r,
    get_survey py_none py_str of_str ObjectId (snd (set_status c sid status)) sid' = inr r
    /\ dget "status" r = Some (of_str status)
    /\ dget "_id" r = None.
Proof.
  intros A O F O'. rewrite (set_status_found c sid status key d A O F). simpl.
  assert (N : dset "status" (of_str status) d <> []).
  { intros E.
    assert (H : dget "status" (dset "status" (of_str status) d) = None)
      by now rewrite E.
    rewrite PyDictFacts.get_set_same in H. discriminate. }
  rewrite (get_survey_found _ sid' key (dset "status" (of_str status) d) O')
    by (try apply PyDictFacts.get_set_same; assumption).
  eexists. split; [reflexivity|]. split.
  - rewrite (safe_obj_nonempty _ N), pop_get.
    destruct (string_dec "_id" "status"); [discriminate|].
    rewrite PyDictFacts.get_set_other by discriminate.
    apply PyDictFacts.get_set_same.
  - apply safe_obj_no_private_id.
Qed.

End Facts.

(** A concrete instance: JSON values, with the text of the scalars. *)
Definition sample_str (v : Py.value) : string :=
  match v with
  | Py.PStr s => s
  | Py.PBool true => "True"
  | Py.PBool false => "False"
  | _ => "None"
  end.

Definition sample_doc : doc Py.value :=
  [("_id", Py.PStr "64b0c0ffee64b0c0ffee64b0"); ("name", Py.PStr "Acme"); ("status", Py.PStr "closed")].

Definition sample_collection : collection Py.value :=
  [("64b0c0ffee64b0c0ffee64b0", sample_doc)].

(** Identifiers up to letter case. *)
Definition sample_oid (s : string) : option string :=
  if (String.length s =? 24)%nat then Some (PyStr.lower s) else None.

Lemma safe_obj_fields_witness :
  PyDict.get string_dec "_id" (safe_obj Py.PNone sample_str Py.PStr sample_doc) = None
  /\ PyDict.get string_dec "id" (safe_obj Py.PNone sample_str Py.PStr sample_doc)
     = Some (Py.PStr "64b0c0ffee64b0c0ffee64b0").
Proof.
  destruct (proj2 (safe_obj_fields _ Py.PNone sample_str Py.PStr sample_doc))
    as (H1 & H2 & _); [discriminate|].
  split; [exact H1 | exact H2].
Defined.

Lemma safe_obj_twice_witness :
  PyDict.get string_dec "id"
    (safe_obj Py.PNone sample_str Py.PStr
       (safe_obj Py.PNone sample_str Py.PStr sample_doc))
  = Some (Py.PStr "None").
Proof.
  exact (proj2 (safe_obj_twice _ Py.PNone sample_str Py.PStr sample_doc
                  ltac:(discriminate))).
Defined.

(** A store that answers the queries on surveys only. *)
Definition sample_query (name : string) (filt : list (string * Py.value))
  : list (doc Py.value) :=
  if (name =? "survey")%string then [sample_doc; sample_doc] else [].

Lemma listings_witness :
  list_surveys Py.PNone sample_str Py.PStr sample_query (Some "org1")
  = map (safe_obj Py.PNone sample_str Py.PStr)
        (sample_query "survey" [("org_id", Py.PStr "org1")])
  /\ list_surveys Py.PNone sample_str Py.PStr sample_query (Some EmptyString)
     = map (safe_obj Py.PNone sample_str Py.PStr) (sample_query "survey" []).
Proof.
  split.
  - refine (proj2 (proj1 (proj2 (listings _ Py.PNone sample_str Py.PStr sample_query
                                   (Some "org1") "s1")) "org1" eq_refl _)).
    discriminate.
  - exact (proj2 (proj1 (listings _ Py.PNone sample_str Py.PStr sample_query
                           (Some EmptyString) "s1") (or_intror eq_refl))).
Defined.

Lemma set_status_failures_witness :
  set_survey_status Py.PStr sample_oid sample_collection "not-an-id" "Active"
  = (inl InvalidStatus, sample_collection)
  /\ set_survey_status Py.PStr sample_oid sample_collection "not-an-id" "active"
     = (inl InvalidId, sample_collection).
Proof.
  split.
  - apply (proj1 (set_status_failures _ Py.PStr sample_oid sample_collection
                    "not-an-id" "Active")).
    simpl. intuition discriminate.
  - apply (proj1 (proj2 (set_status_failures _ Py.PStr sample_oid sample_collection
                           "not-an-id" "active"))).
    + simpl. auto.
    + reflexivity.
Defined.

Lemma set_status_effect_witness :
  exists c' d',
    set_survey_status Py.PStr sample_oid sample_collection
                      "64B0C0FFEE64B0C0FFEE64B0" "draft"
    = (inr ("64B0C0FFEE64B0C0FFEE64B0", "draft"), c')
    /\ find_one c' "64b0c0ffee64b0c0ffee64b0" = Some d'
    /\ PyDict.get string_dec "status" d' = Some (Py.PStr "draft").
Proof.
  destruct (set_status_effect _ Py.PStr sample_oid sample_collection
              "64B0C0FFEE64B0C0FFEE64B0" "draft" "64b0c0ffee64b0c0ffee64b0" sample_doc)
    as (c' & d' & H1 & H2 & H3 & _).
  - simpl. auto.
  - reflexivity.
  - reflexivity.
  - exists c', d'. auto.
Defined.

Lemma set_status_twice_witness :
  set_survey_status Py.PStr sample_oid
    (snd (set_survey_status Py.PStr sample_oid sample_collection
            "64b0c0ffee64b0c0ffee64b0" "closed"))
    "64b0c0ffee64b0c0ffee64b0" "draft"
  = (inr ("64b0c0ffee64b0c0ffee64b0", "draft"),
     snd (set_survey_status Py.PStr sample_oid sample_collection
            "64b0c0ffee64b0c0ffee64b0" "draft")).
Proof.
  apply (set_status_twice _ Py.PStr sample_oid sample_collection
           "64b0c0ffee64b0c0ffee64b0" "closed" "draft"
           "64b0c0ffee64b0c0ffee64b0" sample_doc).
  - simpl. auto.
  - simpl. auto.
  - reflexivity.
  - reflexivity.
Defined.

Lemma get_survey_after_set_status_witness :
  exists r,
    get_survey Py.PNone sample_str Py.PStr sample_oid
      (snd (set_survey_status Py.PStr sample_oid sample_collection
              "64b0c0ffee64b0c0ffee64b0" "active"))
      "64B0C0FFEE64B0C0FFEE64B0" = inr r
    /\ PyDict.get string_dec "status" r = Some (Py.PStr "active")
    /\ PyDict.get string_dec "_id" r = None.
Proof.
  apply (get_survey_after_set_status _ Py.PNone sample_str Py.PStr sample_oid
           sample_collection "64b0c0ffee64b0c0ffee64b0" "64B0C0FFEE64B0C0FFEE64B0"
           "active" "64b0c0ffee64b0c0ffee64b0" sample_doc).
  - simpl. auto.
  - reflexivity.
  - reflexivity.
  - reflexivity.
Defined.

End DocumentFacts.

(** ** Submissions and the store *)

Module SubmissionStore.
Import Py Schemas Store SubmissionFacts.

(** The store with one more response at the end. *)
Definition with_response (d : db) (r : ResponseDoc) : db :=
  {| survey := survey d; surveyresponse := surveyresponse d ++ [r] |}.

Definition counts_for (sid : string) (who : option string) (p : SurveyResponse) : bool :=
  ((survey_id p =? sid)%string && same_submitter (submitted_by p) who)%bool.

Lemma matching_with_response d r sid :
  matching (with_response d r) sid =
  matching d sid ++ (if (survey_id (doc r) =? sid)%string then [r] else []).
Proof. unfold matching, with_response. simpl. now rewrite filter_app. Qed.

Lemma count_with_response d r sid who :
  count_documents (with_response d r) sid who =
  (count_documents d sid who + (if counts_for sid who (doc r) then 1 else 0))%Z.
Proof.
  unfold count_documents, counts_for. rewrite matching_with_response, filter_app, length_app.
  destruct (survey_id (doc r) =? sid)%string; simpl.
  - destruct (same_submitter (submitted_by (doc r)) who); simpl; lia.
  - lia.
Qed.

Lemma same_submitter_refl who : same_submitter who who = true.
Proof. destruct who as [w|]; simpl; auto. apply String.eqb_refl. Qed.

Section Submit.
Variable ObjectId : string -> option string.

Local Abbreviation submit := (submit_response ObjectId).

(** The two ways a submission ends on an existing survey. *)
Lemma submit_outcomes d sid payload new_id now s :
  get_survey ObjectId d sid = inr s ->
  (exists e, submit d sid payload new_id now = (inl e, d))
  \/ (~ auth_missing s payload /\ ~ over_limit d sid s payload
      /\ submit d sid payload new_id now =
         (inr new_id, with_response d {| doc := payload; created_at := now |})).
Proof.
  intros G.
  destruct (submit_cases ObjectId d sid payload new_id now s G)
    as [[A E] | [(NA & L & E) | (NA & NL & E)]]; eauto.
Qed.

Lemma submit_no_survey d sid payload new_id now e :
  get_survey ObjectId d sid = inl e -> submit d sid payload new_id now = (inl e, d).
Proof. intros G. unfold submit_response. now rewrite G. Qed.

(** X8.  A failed lookup of the survey ends the submission with that
    failure, whatever the response is; and every rejected submission, for
    whatever reason, leaves the store exactly as it was. *)
Theorem rejected_submission_changes_nothing d sid payload new_id now :
  (forall e, get_survey ObjectId d sid = inl e ->
             submit d sid payload new_id now = (inl e, d))
  /\ (forall e, fst (submit d sid payload new_id now) = inl e ->
                snd (submit d sid payload new_id now) = d).
Proof.
  split; [intros e; apply submit_no_survey|].
  intros e H. destruct (get_survey ObjectId d sid) as [e'|s] eqn:G.
  - now rewrite (submit_no_survey d sid payload new_id now e' G).
  - destruct (submit_outcomes d sid payload new_id now s G)
      as [[e' E] | (_ & _ & E)]; rewrite E in *; [reflexivity | discriminate].
Qed.

(** X9.  An accepted submission returns the identifier the store
    assigned and adds exactly one document, the submitted response with
    its creation time, after the responses already stored; the surveys are
    untouched. *)
Theorem accepted_submission_is_stored d sid payload new_id now i :
  fst (submit d sid payload new_id now) = inr i ->
  i = new_id
  /\ survey (snd (submit d sid payload new_id now)) = survey d
  /\ surveyresponse (snd (submit d sid payload new_id now))
     = surveyresponse d ++ [{| doc := payload; created_at := now |}].
Proof.
  intros H. destruct (get_survey ObjectId d sid) as [e'|s] eqn:G.
  - rewrite (submit_no_survey d sid payload new_id now e' G) in H. discriminate.
  - destruct (submit_outcomes d sid payload new_id now s G)
      as [[e' E] | (_ & _ & E)]; rewrite E in *; [discriminate|].
    simpl in *. injection H as <-. auto.
Qed.

(** X10.  After an accepted submission the count of stored responses for
    a survey and submitter grows by one exactly when the response's own
    [survey_id] field is that survey and its submitter is that one.  So a
    response posted to a survey under another [survey_id] in its body does
    not count towards the limit of the survey it was posted to. *)
Theorem count_after_accepted d sid payload new_id now i :
  fst (submit d sid payload new_id now) = inr i ->
  (forall sid' who,
      count_documents (snd (submit d sid payload new_id now)) sid' who
      = (count_documents d sid' who
         + (if counts_for sid' who payload then 1 else 0))%Z)
  /\ (survey_id payload <> sid ->
      prior_count (snd (submit d sid payload new_id now)) sid payload
      = prior_count d sid payload).
Proof.
  intros H. destruct (get_survey ObjectId d sid) as [e'|s] eqn:G.
  - rewrite (submit_no_survey d sid payload new_id now e' G) in H. discriminate.
  - destruct (submit_outcomes d sid payload new_id now s G)
      as [[e' E] | (_ & _ & E)]; rewrite E in *; [discriminate|].
    simpl. split.
    + intros sid' who. apply count_with_response.
    + intros N. unfold prior_count. rewrite count_with_response.
      unfold counts_for. simpl. apply String.eqb_neq in N. rewrite N. simpl. lia.
Qed.

(** X11.  For a survey with a non-zero limit, a submission that names its
    submitter and whose body carries as [survey_id] the very string of the
    request never takes the number of stored responses with that
    [survey_id] string and that submitter above the larger of the limit
    and the number before. *)
Theorem limit_is_kept d sid payload new_id now s n :
  get_survey ObjectId d sid = inr s ->
  response_limit_per_user (settings s) = Some n ->
  n <> 0%Z ->
  has_identity payload ->
  survey_id payload = sid ->
  (prior_count (snd (submit d sid payload new_id now)) sid payload
   <= Z.max (prior_count d sid payload) n)%Z.
Proof.
  intros G L N I S. subst sid.
  destruct (submit_outcomes d (survey_id payload) payload new_id now s G)
    as [[e' E] | (_ & NL & E)]; rewrite E; simpl; [lia|].
  unfold prior_count in *. rewrite count_with_response. unfold counts_for. simpl.
  rewrite String.eqb_refl, same_submitter_refl. simpl.
  assert (~ (n <= count_documents d (survey_id payload) (submitted_by payload))%Z).
  { intros C. apply NL. exists n. unfold prior_count. auto. }
  lia.
Qed.

(** X12.  A survey that keeps the default settings of the schema accepts
    every submission. *)
Theorem default_settings_accept d sid payload new_id now s :
  get_survey ObjectId d sid = inr s ->
  settings s = Documents.default_settings ->
  fst (submit d sid payload new_id now) = inr new_id.
Proof.
  intros G D.
  destruct (submit_cases ObjectId d sid payload new_id now s G)
    as [[(A & _) E] | [(_ & (n & L & _) & E) | (_ & _ & E)]].
  - rewrite D in A. discriminate.
  - rewrite D in L. discriminate.
  - now rewrite E.
Qed.

End Submit.

Definition open_survey : Survey :=
  {| questions := []; settings := Documents.default_settings |}.

Lemma rejected_submission_changes_nothing_witness :
  submit_response Some (store_with auth_survey) "missing" (by_user "s1" None) "r2" "t1"
  = (inl SurveyNotFound, store_with auth_survey)
  /\ snd (submit_response Some (store_with auth_survey) "s1" (by_user "s1" None) "r2" "t1")
     = store_with auth_survey.
Proof.
  split.
  - exact (proj1 (rejected_submission_changes_nothing Some (store_with auth_survey)
                    "missing" (by_user "s1" None) "r2" "t1") SurveyNotFound eq_refl).
  - exact (proj2 (rejected_submission_changes_nothing Some (store_with auth_survey)
                    "s1" (by_user "s1" None) "r2" "t1") AuthRequired eq_refl).
Defined.

Lemma accepted_submission_is_stored_witness :
  surveyresponse
    (snd (submit_response Some (store_with (capped_survey (Some 2%Z))) "s1"
            (by_user "s1" (Some "u1")) "r2" "t1"))
  = surveyresponse (store_with (capped_survey (Some 2%Z)))
    ++ [{| doc := by_user "s1" (Some "u1"); created_at := "t1" |}].
Proof.
  exact (proj2 (proj2 (accepted_submission_is_stored Some
                         (store_with (capped_survey (Some 2%Z))) "s1"
                         (by_user "s1" (Some "u1")) "r2" "t1" "r2" eq_refl))).
Defined.

(** A response posted to "s1" that names "s2" in its body. *)
Lemma count_after_accepted_witness :
  prior_count
    (snd (submit_response Some (store_with (capped_survey (Some 2%Z))) "s1"
            (by_user "s2" (Some "u1")) "r2" "t1"))
    "s1" (by_user "s2" (Some "u1"))
  = prior_count (store_with (capped_survey (Some 2%Z))) "s1" (by_user "s2" (Some "u1")).
Proof.
  apply (proj2 (count_after_accepted Some (store_with (capped_survey (Some 2%Z))) "s1"
                  (by_user "s2" (Some "u1")) "r2" "t1" "r2" eq_refl)).
  discriminate.
Defined.

Lemma limit_is_kept_witness :
  (prior_count
     (snd (submit_response Some (store_with (capped_survey (Some 1%Z))) "s1"
             (by_user "s1" (Some "u1")) "r2" "t1"))
     "s1" (by_user "s1" (Some "u1"))
   <= Z.max (prior_count (store_with (capped_survey (Some 1%Z))) "s1"
                         (by_user "s1" (Some "u1"))) 1)%Z.
Proof.
  apply (limit_is_kept Some (store_with (capped_survey (Some 1%Z))) "s1"
           (by_user "s1" (Some "u1")) "r2" "t1" (capped_survey (Some 1%Z)) 1%Z).
  - reflexivity.
  - reflexivity.
  - discriminate.
  - exists "u1". split; [reflexivity | discriminate].
  - reflexivity.
Defined.

Lemma default_settings_accept_witness :
  fst (submit_response Some (store_with open_survey) "s1" (by_user "s1" None) "r2" "t1")
  = inr "r2".
Proof.
  exact (default_settings_accept Some (store_with open_survey) "s1"
           (by_user "s1" None) "r2" "t1" open_survey eq_refl eq_refl).
Defined.

End SubmissionStore.

(** ** Export and the store *)

Module ExportStore.
Import Py Schemas Store ExportFacts SubmissionStore.

Lemma response_chunks_app qs l1 l2 :
  response_chunks qs (l1 ++ l2) =
  match response_chunks qs l1 with
  | (chunks, Finished) =>
      (chunks ++ fst (response_chunks qs l2), snd (response_chunks qs l2))
  | (chunks, Raised) => (chunks, Raised)
  end.
Proof.
  induction l1 as [|r l1 IH]; simpl.
  - now destruct (response_chunks qs l2).
  - destruct (response_row qs r) as [row|]; auto.
    rewrite IH. destruct (response_chunks qs l1) as [chunks []]; reflexivity.
Qed.

Lemma response_chunks_hashable qs rs :
  Forall hashable_keys rs ->
  exists rows,
    response_chunks qs rs = (rows, Finished)
    /\ Forall2 (fun r row => response_row qs r = Some row) rs rows.
Proof.
  induction 1 as [|r rs Hr Hrs IH]; simpl.
  - exists []. split; [reflexivity | constructor].
  - apply (response_row_defined qs) in Hr. destruct Hr as [row E].
    destruct IH as (rows & C & F). rewrite E, C.
    exists (row :: rows). split; [reflexivity | now constructor].
Qed.

Lemma response_row_unhashable qs r :
  ~ hashable_keys r -> response_row qs r = None.
Proof.
  intros N. destruct (response_row qs r) as [row|] eqn:E; auto.
  exfalso. apply N. apply (response_row_defined qs). eauto.
Qed.

(** X13.  The generator emits the header and the rows of the responses
    that come before the first response with an unhashable answer key,
    and then stops: neither that response nor any later one is
    exported. *)
Theorem export_stops_at_first_unhashable qs before r after :
  Forall hashable_keys before ->
  ~ hashable_keys r ->
  exists rows,
    iter_csv qs (before ++ r :: after) = (export_headers qs :: rows, Raised)
    /\ Forall2 (fun b row => response_row qs b = Some row) before rows.
Proof.
  intros B N. destruct (response_chunks_hashable qs before B) as (rows & C & F).
  exists rows. split; auto.
  unfold iter_csv. rewrite response_chunks_app, C. simpl.
  rewrite (response_row_unhashable qs r N). simpl. now rewrite app_nil_r.
Qed.

(** The row of a response whose answer lookup is built. *)
Definition row_of (qs : list Question) (r : ResponseDoc) : list value :=
  match response_row qs r with
  | Some row => row
  | None => []
  end.

Lemma chunks_of_hashable qs l :
  Forall hashable_keys l ->
  response_chunks qs l = (map (row_of qs) l, Finished).
Proof.
  induction 1 as [|r l Hr Hl IH]; simpl; auto.
  unfold row_of at 1. apply (response_row_defined qs) in Hr.
  destruct Hr as [row ->]. now rewrite IH.
Qed.

Lemma chunks_finished qs l rows :
  response_chunks qs l = (rows, Finished) ->
  Forall hashable_keys l /\ rows = map (row_of qs) l.
Proof.
  revert rows. induction l as [|r l IH]; simpl; intros rows H.
  - injection H as <-. split; [constructor | reflexivity].
  - unfold row_of at 1. destruct (response_row qs r) as [row|] eqn:R; [|discriminate].
    destruct (response_chunks qs l) as [chunks e]. injection H as <- ->.
    destruct (IH chunks eq_refl) as [F ->]. split; auto.
    constructor; auto. apply (response_row_defined qs). eauto.
Qed.



Section Exporting.
Variable ObjectId : string -> option string.
Variable arrange : list ResponseDoc -> list ResponseDoc.

Local Abbreviation export := (export_csv ObjectId arrange).
Local Abbreviation submit := (submit_response ObjectId).

Lemma get_survey_with_response d r sid :
  get_survey ObjectId (with_response d r) sid = get_survey ObjectId d sid.
Proof. reflexivity. Qed.


(** X15.  Responses are matched by the literal [survey_id] string: when no
    stored response carries the string the export is asked with, the
    export of an existing survey is the header row alone, also when the
    string is another spelling of the identifier the responses carry. *)
Theorem export_without_responses d sid s :
  rearranges arrange ->
  get_survey ObjectId d sid = inr s ->
  (forall r, In r (surveyresponse d) -> survey_id (doc r) <> sid) ->
  export d sid = inr ([export_headers (questions s)], Finished).
Proof.
  intros A G N. unfold export_csv, find. rewrite G.
  assert (matching d sid = []) as ->.
  { unfold matching. induction (surveyresponse d) as [|r l IH]; simpl; auto.
    assert (E : (survey_id (doc r) =? sid)%string = false)
      by (apply String.eqb_neq, N; now left).
    rewrite E. apply IH. intros r' H. apply N. now right. }
  assert (arrange [] = []) as ->; [|reflexivity].
  apply Permutation_nil, Permutation_sym, A.
Qed.

(** The export of the store with one more response of the survey. *)
Lemma export_with_response d r sid s :
  rearranges arrange ->
  get_survey ObjectId d sid = inr s ->
  survey_id (doc r) = sid ->
  export (with_response d r) sid
  = inr (iter_csv (questions s) (arrange (matching d sid ++ [r])))
  /\ Permutation (arrange (matching d sid ++ [r])) (arrange (matching d sid) ++ [r]).
Proof.
  intros A G S. unfold export_csv, find. rewrite get_survey_with_response, G.
  rewrite matching_with_response. apply String.eqb_eq in S. rewrite S.
  split; [reflexivity|].
  etransitivity; [apply A|]. apply Permutation_app_tail, Permutation_sym, A.
Qed.

Lemma export_finished d sid s rows :
  get_survey ObjectId d sid = inr s ->
  export d sid = inr (rows, Finished) ->
  Forall hashable_keys (arrange (matching d sid))
  /\ rows = export_headers (questions s)
            :: map (row_of (questions s)) (arrange (matching d sid)).
Proof.
  intros G E. unfold export_csv, find, iter_csv in E. rewrite G in E.
  destruct (response_chunks (questions s) (arrange (matching d sid)))
    as [chunks e] eqn:C.
  injection E as <- ->. destruct (chunks_finished _ _ _ C) as [F ->]. auto.
Qed.

(** X16.  Submission and export compose.  After an accepted submission
    whose body carries as [survey_id] the string it was posted under, and
    whose answer keys are hashable, a complete export asked with that
    string stays complete and gains exactly one row: in whatever order the
    store returns the responses, the rows are those it had and the new
    response's row, made of the cells of the questions followed by the
    submitter, the anonymity flag and the creation time. *)
Theorem accepted_response_is_exported d sid payload new_id now s rows :
  rearranges arrange ->
  get_survey ObjectId d sid = inr s ->
  fst (submit d sid payload new_id now) = inr new_id ->
  survey_id payload = sid ->
  export d sid = inr (rows, Finished) ->
  (forall a, In a (answers payload) -> hashable (answer_key a) = true) ->
  exists m body,
    ans_map (answers payload) = Some m
    /\ export (snd (submit d sid payload new_id now)) sid
       = inr (export_headers (questions s) :: body, Finished)
    /\ Permutation
         (export_headers (questions s) :: body)
         (rows ++ [map (cell_value m) (questions s)
                   ++ [of_option (submitted_by payload);
                       PBool (anonymous payload); PStr now]]).
Proof.
  intros A G Acc S E H.
  destruct (submit_outcomes ObjectId d sid payload new_id now s G)
    as [[e' X] | (_ & _ & X)]; rewrite X in *; [discriminate|]. simpl.
  set (r := {| doc := payload; created_at := now |}).
  destruct (export_with_response d r sid s A G S) as [-> P].
  destruct (export_finished d sid s rows G E) as [F ->].
  assert (Hr : hashable_keys r) by exact H.
  apply ans_map_defined in H. destruct H as [m M].
  exists m, (map (row_of (questions s)) (arrange (matching d sid ++ [r]))).
  split; [exact M|].
  assert (F' : Forall hashable_keys (arrange (matching d sid ++ [r]))).
  { apply Forall_forall. intros x Hx. apply (Permutation_in _ P) in Hx.
    apply in_app_or in Hx. destruct Hx as [Hx|[<-|[]]]; auto.
    revert x Hx. now apply Forall_forall. }
  split.
  - unfold iter_csv. now rewrite (chunks_of_hashable _ _ F').
  - simpl. apply perm_skip.
    assert (R : row_of (questions s) r
                = map (cell_value m) (questions s)
                  ++ [of_option (submitted_by payload); PBool (anonymous payload); PStr now]).
    { unfold row_of. now rewrite (response_row_cells (questions s) r m M). }
    rewrite <- R.
    change [row_of (questions s) r] with (map (row_of (questions s)) [r]).
    rewrite <- map_app. now apply Permutation_map.
Qed.


End Exporting.

(** X18.  An answer entry whose key is neither the id nor the text of a
    question does not change that question's cell; in particular a key
    that is not a string, such as the number 1 for the id "1", matches no
    question. *)
Theorem unrelated_answer_is_ignored answers a k m q :
  ans_map answers = Some m ->
  hash_key (answer_key a) = Some k ->
  k <> KStr (id q) -> k <> KStr (text q) ->
  exists m',
    ans_map (answers ++ [a]) = Some m'
    /\ cell_value m' q = cell_value m q.
Proof.
  intros M K N1 N2. exists (PyDict.set hkey_eq_dec k (field "value" a) m).
  split.
  - rewrite ans_map_fold in *. rewrite fold_left_app, M. simpl. now rewrite K.
  - unfold cell_value, map_get.
    now rewrite !PyDictFacts.get_set_other by assumption.
Qed.

Definition numbered_answer : object := [("questionId", PInt 1); ("value", PStr "x")].

Definition question_one : Question :=
  {| id := "1"; text := "One?"; export_header := None |}.

Lemma unrelated_answer_is_ignored_witness :
  exists m',
    ans_map ([] ++ [numbered_answer]) = Some m'
    /\ cell_value m' question_one = cell_value [] question_one.
Proof.
  apply (unrelated_answer_is_ignored [] numbered_answer (KNum 1) [] question_one).
  - reflexivity.
  - reflexivity.
  - discriminate.
  - discriminate.
Defined.

Definition plain_response (sid who value : string) : ResponseDoc :=
  {| doc := {| survey_id := sid;
               answers := [[("questionId", PStr "q1"); ("value", PStr value)]];
               submitted_by := Some who;
               anonymous := false |};
     created_at := "t0" |}.

Definition age_survey : Survey :=
  {| questions := [question_age]; settings := Documents.default_settings |}.

Definition age_store : db :=
  {| survey := [("s1", age_survey)];
     surveyresponse := [plain_response "s1" "u1" "30"] |}.

Lemma export_stops_at_first_unhashable_witness :
  exists rows,
    iter_csv [question_age]
             ([plain_response "s1" "u1" "30"]
              ++ list_keyed_response :: [plain_response "s1" "u2" "25"])
    = (export_headers [question_age] :: rows, Raised)
    /\ Forall2 (fun b row => response_row [question_age] b = Some row)
               [plain_response "s1" "u1" "30"] rows.
Proof.
  apply export_stops_at_first_unhashable.
  - constructor; [|constructor]. intros a [<-|[]]. reflexivity.
  - intros H. specialize (H _ (or_introl eq_refl)). discriminate.
Defined.

(** A store that returns the responses of a query newest first. *)
Definition newest_first (l : list ResponseDoc) : list ResponseDoc := rev l.

Lemma newest_first_rearranges : rearranges newest_first.
Proof. intros l. apply Permutation_sym, Permutation_rev. Qed.


(** Identifiers up to letter case: "S1" finds the survey stored as "s1". *)
Lemma export_without_responses_witness :
  export_csv (fun s => Some (PyStr.lower s)) newest_first age_store "S1"
  = inr ([export_headers [question_age]], Finished).
Proof.
  apply (export_without_responses (fun s => Some (PyStr.lower s)) newest_first
           age_store "S1" age_survey).
  - exact newest_first_rearranges.
  - reflexivity.
  - intros r [<-|[]]. discriminate.
Defined.

Lemma accepted_response_is_exported_witness :
  exists m body,
    ans_map (answers (doc (plain_response "s1" "u2" "25"))) = Some m
    /\ export_csv Some newest_first
         (snd (submit_response Some age_store "s1" (doc (plain_response "s1" "u2" "25"))
                 "r2" "t1")) "s1"
       = inr (export_headers [question_age] :: body, Finished)
    /\ Permutation
         (export_headers [question_age] :: body)
         ([export_headers [question_age];
           [PStr "30"; PStr "u1"; PBool false; PStr "t0"]]
          ++ [map (cell_value m) [question_age]
              ++ [PStr "u2"; PBool false; PStr "t1"]]).
Proof.
  apply (accepted_response_is_exported Some newest_first age_store "s1"
           (doc (plain_response "s1" "u2" "25")) "r2" "t1" age_survey).
  - exact newest_first_rearranges.
  - reflexivity.
  - reflexivity.
  - reflexivity.
  - reflexivity.
  - intros a [<-|[]]. reflexivity.
Defined.


End ExportStore.

(** ** More on parsing and the analysis *)

Module DatasetMore.
Import Csv Datasets CsvFacts DatasetFacts.

Lemma data_rows_blank fieldnames l1 l2 :
  data_rows (fieldnames :: l1 ++ [] :: l2) = data_rows (fieldnames :: l1 ++ l2).
Proof. simpl. now rewrite !filter_app. Qed.

(** X19.  A blank record after the header changes nothing: the upload of
    the content with and without it gives the same result. *)
Theorem blank_record_is_ignored filename (fieldnames : record) (l1 l2 : list record) :
  upload_dataset filename (fieldnames :: l1 ++ [] :: l2)
  = upload_dataset filename (fieldnames :: l1 ++ l2).
Proof.
  unfold upload_dataset. now rewrite !DictReader_cons, data_rows_blank.
Qed.

Lemma dict_row_no_header r : r <> [] -> dict_row [] r = [(None, Rest r)].
Proof. destruct r; [congruence | reflexivity]. Qed.

(** X20.  A blank first record is not skipped: it is the header, with no
    field names.  Every data row is then parsed to the single key [None]
    holding all its fields, and an upload with a data row raises the
    schema's validation error on that key. *)
Theorem blank_header filename (rest : list record) :
  DictReader ([] :: rest)
  = map (fun r => [(None, Rest r)]) (data_rows ([] :: rest))
  /\ (has_csv_extension filename -> data_rows ([] :: rest) <> [] ->
      upload_dataset filename ([] :: rest) = inl ValidationError).
Proof.
  split.
  - rewrite DictReader_cons. apply map_ext_in. intros r H.
    apply dict_row_no_header. simpl in H. apply filter_In in H.
    destruct H as [_ H]. now destruct r.
  - intros Y N. apply csv_filename_iff in Y.
    destruct (data_rows ([] :: rest)) as [|first others] eqn:D; [congruence|].
    apply (upload_refuses filename [] rest first others Y D).
    intros F. apply Forall_inv in F. unfold fits in F.
    assert (I : In first (data_rows ([] :: rest))) by (rewrite D; now left).
    simpl in I. apply filter_In in I. destruct I as [_ I].
    destruct first; [discriminate | simpl in F; lia].
Qed.

(** X21.  The columns of an upload hold no name twice, and the keys of
    [distincts] are exactly the columns, in the same order. *)
Theorem columns_are_distinct_keys filename records res :
  upload_dataset filename records = inr res ->
  NoDup (columns res) /\ PyDict.keys (distincts res) = columns res.
Proof.
  intros U. destruct (upload_returns filename records res U)
    as (fieldnames & rest & first & others & _ & _ & _ & ->).
  split.
  - apply dict_row_keys_NoDup.
  - apply analyze_distinct_keys, dict_row_keys_NoDup.
Qed.

(** X22.  Whenever the upload returns, its columns are the header's
    names in their order, each at its first occurrence; so two uploads
    with the same header that both return have the same columns, whatever
    their data rows are. *)
Theorem columns_from_header filename filename' (fieldnames : record)
        (rest rest' : list record) res res' :
  upload_dataset filename (fieldnames :: rest) = inr res ->
  upload_dataset filename' (fieldnames :: rest') = inr res' ->
  columns res = map Some (first_occurrences string_dec fieldnames)
  /\ columns res = columns res'.
Proof.
  assert (G : forall f r x, upload_dataset f (fieldnames :: r) = inr x ->
                columns x = map Some (first_occurrences string_dec fieldnames)).
  { intros f r x U. destruct (upload_returns f _ x U)
      as (h & t & first & others & [= <- <-] & _ & F & ->).
    unfold analyze. cbn [columns]. rewrite dict_row_keys.
    apply Forall_inv in F. unfold fits in F. apply Nat.ltb_ge in F.
    rewrite F. apply app_nil_r. }
  intros U U'. rewrite (G _ _ _ U), (G _ _ _ U'). auto.
Qed.

Lemma first_occurrences_length (A : Type) (dec : forall x y : A, {x = y} + {x <> y}) l :
  (List.length (first_occurrences dec l) <= List.length l)%nat.
Proof.
  induction l as [|x l IH]; simpl; auto.
  pose proof (filter_length_le (differs dec x) (first_occurrences dec l)). lia.
Qed.

(** X23.  An upload reports at least one row, and no distinct list is
    longer than the number of rows. *)
Theorem distincts_bounded filename records res :
  upload_dataset filename records = inr res ->
  (1 <= rowCount res)%nat
  /\ (forall c l, PyDict.get key_eq_dec c (distincts res) = Some l ->
                  (List.length l <= rowCount res)%nat).
Proof.
  intros U. destruct (upload_returns filename records res U)
    as (fieldnames & rest & first & others & _ & _ & _ & ->).
  split; [simpl; lia|]. intros c l G.
  assert (I : In c (PyDict.keys (dict_row fieldnames first))).
  { change (PyDict.keys (dict_row fieldnames first))
      with (columns (analyze (dict_row fieldnames first)
                             (map (dict_row fieldnames) (first :: others)))).
    rewrite <- (analyze_distinct_keys (dict_row fieldnames first)
                  (map (dict_row fieldnames) (first :: others)))
      by apply dict_row_keys_NoDup.
    apply (PyDictFacts.get_In_keys _ _ key_eq_dec). eauto. }
  rewrite (analyze_distincts _ (map (dict_row fieldnames) (first :: others)) c I) in G.
  assert (E : first_occurrences cell_eq_dec
                (filter present
                   (map (row_get c) (map (dict_row fieldnames) (first :: others)))) = l)
    by congruence.
  rewrite <- E. unfold analyze. cbn [rowCount].
  etransitivity; [apply first_occurrences_length|].
  etransitivity; [apply filter_length_le|].
  rewrite length_map. reflexivity.
Qed.

(** *** Rectangular files *)

Lemma NoDup_map_Some (l : list string) : NoDup l -> NoDup (map Some l).
Proof.
  induction 1 as [|x l Hx Hl IH]; simpl; constructor; auto.
  rewrite in_map_iff. intros (y & [= ->] & Hy). contradiction.
Qed.

Lemma set_fresh (d : row) k v :
  ~ In k (PyDict.keys d) -> PyDict.set key_eq_dec k v d = d ++ [(k, v)].
Proof.
  induction d as [|[k0 v0] d IH]; simpl; intros N; auto.
  destruct (key_eq_dec k k0) as [E|E]; [exfalso; apply N; now left|].
  rewrite IH; auto.
Qed.

Lemma update_fresh (d : row) pairs :
  NoDup (map fst pairs) ->
  (forall k, In k (map fst pairs) -> ~ In k (PyDict.keys d)) ->
  PyDict.update key_eq_dec d pairs = d ++ pairs.
Proof.
  revert d. induction pairs as [|[k v] ps IH]; intros d N F.
  - simpl. now rewrite app_nil_r.
  - rewrite PyDictFacts.update_cons. simpl in N. inversion N as [|? ? Hk Hps]; subst.
    rewrite set_fresh by (apply F; now left).
    rewrite IH; auto.
    + now rewrite <- app_assoc.
    + intros k' Hk' I. unfold PyDict.keys in I. rewrite map_app in I.
      apply in_app_or in I. destruct I as [I|[<-|[]]].
      * apply (F k'); [now right | exact I].
      * contradiction.
Qed.

(** X24.  With a header without repeated names, a record of the header's
    length is parsed to the header's names paired with the record's
    fields, in the header's order. *)
Theorem dict_row_rectangular (fieldnames r : record) :
  NoDup fieldnames -> List.length r = List.length fieldnames ->
  dict_row fieldnames r = combine (map Some fieldnames) (map Str r).
Proof.
  intros N L. unfold dict_row. rewrite L, Nat.ltb_irrefl.
  unfold PyDict.from_pairs.
  rewrite update_fresh; [reflexivity | | intros k _ []].
  rewrite map_fst_combine, length_map, L, <- (length_map Some fieldnames), firstn_all.
  now apply NoDup_map_Some.
Qed.

Lemma row_get_rectangular fieldnames r i name :
  NoDup fieldnames -> List.length r = List.length fieldnames ->
  nth_error fieldnames i = Some name ->
  row_get (Some name) (dict_row fieldnames r) = Str (nth i r EmptyString).
Proof.
  intros N L H.
  assert (Hi : (i < List.length r)%nat).
  { rewrite L. apply nth_error_Some. congruence. }
  unfold row_get, dict_row. rewrite L, Nat.ltb_irrefl.
  fold (zipped fieldnames r). rewrite (zipped_get fieldnames r i name N H Hi).
  now rewrite (nth_error_nth' r EmptyString Hi).
Qed.

Lemma filter_present_Str (f : record -> string) (l : list record) :
  filter present (map (fun r => Str (f r)) l) = map (fun r => Str (f r)) l.
Proof. induction l as [|r l IH]; simpl; congruence. Qed.

(** X25.  For a file whose header repeats no name and whose data rows all
    have the header's length, the columns are the header and the distinct
    list of the i-th column is the first-occurrence list of the i-th
    fields of the data rows. *)
Theorem rectangular_file filename (fieldnames : record) (rest : list record) i name :
  has_csv_extension filename ->
  NoDup fieldnames ->
  data_rows (fieldnames :: rest) <> [] ->
  (forall r, In r (data_rows (fieldnames :: rest)) ->
             List.length r = List.length fieldnames) ->
  nth_error fieldnames i = Some name ->
  exists res,
    upload_dataset filename (fieldnames :: rest) = inr res
    /\ columns res = map Some fieldnames
    /\ PyDict.get key_eq_dec (Some name) (distincts res)
       = Some (first_occurrences cell_eq_dec
                 (map (fun r => Str (nth i r EmptyString))
                      (data_rows (fieldnames :: rest)))).
Proof.
  intros Y N D R H. apply csv_filename_iff in Y.
  destruct (data_rows (fieldnames :: rest)) as [|first others] eqn:E; [congruence|].
  assert (F : Forall (fits fieldnames) (first :: others)).
  { apply Forall_forall. intros r Hr. unfold fits. rewrite (R r Hr). lia. }
  rewrite (upload_accepts filename fieldnames rest first others Y E F).
  eexists. split; [reflexivity|].
  assert (L : List.length first = List.length fieldnames) by (apply R; now left).
  assert (K : PyDict.keys (dict_row fieldnames first) = map Some fieldnames).
  { rewrite dict_row_keys, first_occurrences_NoDup by assumption.
    rewrite L, Nat.ltb_irrefl. apply app_nil_r. }
  split; [exact K|].
  rewrite analyze_distincts.
  - f_equal. f_equal. rewrite map_map.
    assert (M : map (fun r => row_get (Some name) (dict_row fieldnames r)) (first :: others)
                = map (fun r => Str (nth i r EmptyString)) (first :: others)).
    { apply map_ext_in. intros r Hr. now apply row_get_rectangular; auto. }
    rewrite M. apply (filter_present_Str (fun r => nth i r EmptyString)).
  - rewrite K. apply in_map. eapply nth_error_In; eauto.
Qed.

Definition people : list record :=
  [["name"; "age"]; ["Alice"; "30"]; ["Bob"; "25"]; ["Alice"; "41"]].

Lemma blank_header_witness :
  upload_dataset "data.csv" [[]; ["a"; "b"]; ["1"; "2"]] = inl ValidationError.
Proof.
  apply (proj2 (blank_header "data.csv" [["a"; "b"]; ["1"; "2"]])).
  - apply csv_filename_iff. reflexivity.
  - simpl. discriminate.
Defined.

Lemma columns_are_distinct_keys_witness :
  NoDup [Some "name"; Some "age"]
  /\ PyDict.keys (distincts (analyze (dict_row ["name"; "age"] ["Alice"; "30"])
                                     (DictReader people)))
     = [Some "name"; Some "age"].
Proof.
  exact (columns_are_distinct_keys "people.csv" people _ eq_refl).
Defined.

Lemma columns_from_header_witness :
  columns (analyze (dict_row ["x"; "x"] ["1"; "2"]) (DictReader [["x"; "x"]; ["1"; "2"]]))
  = [Some "x"]
  /\ columns (analyze (dict_row ["x"; "x"] ["1"; "2"]) (DictReader [["x"; "x"]; ["1"; "2"]]))
     = columns (analyze (dict_row ["x"; "x"] ["7"])
                        (DictReader [["x"; "x"]; ["7"]; ["8"; "9"]])).
Proof.
  exact (columns_from_header "a.csv" "b.CSV" ["x"; "x"] [["1"; "2"]] [["7"]; ["8"; "9"]]
           _ _ eq_refl eq_refl).
Defined.

Lemma distincts_bounded_witness :
  (1 <= 3)%nat
  /\ (forall c l,
        PyDict.get key_eq_dec c
          (distincts (analyze (dict_row ["name"; "age"] ["Alice"; "30"])
                              (DictReader people))) = Some l ->
        (List.length l <= 3)%nat).
Proof.
  exact (distincts_bounded "people.csv" people _ eq_refl).
Defined.

Lemma dict_row_rectangular_witness :
  dict_row ["name"; "age"] ["Alice"; "30"]
  = [(Some "name", Str "Alice"); (Some "age", Str "30")].
Proof.
  apply (dict_row_rectangular ["name"; "age"] ["Alice"; "30"]).
  - repeat constructor; simpl; intuition discriminate.
  - reflexivity.
Defined.

Lemma rectangular_file_witness :
  exists res,
    upload_dataset "people.csv" people = inr res
    /\ columns res = [Some "name"; Some "age"]
    /\ PyDict.get key_eq_dec (Some "name") (distincts res)
       = Some (first_occurrences cell_eq_dec [Str "Alice"; Str "Bob"; Str "Alice"]).
Proof.
  apply (rectangular_file "people.csv" ["name"; "age"]
           [["Alice"; "30"]; ["Bob"; "25"]; ["Alice"; "41"]] 0 "name").
  - apply csv_filename_iff. reflexivity.
  - repeat constructor; simpl; intuition discriminate.
  - simpl. discriminate.
  - simpl. intros r [<-|[<-|[<-|[]]]]; reflexivity.
  - reflexivity.
Defined.

End DatasetMore.

(** ** Lookups by identifier *)

Module LookupFacts.
Import Documents DocumentFacts.

Section Lookups.
Variable V : Type.
Variable py_none : V.
Variable py_str : V -> string.
Variable of_str : string -> V.
Variable ObjectId : string -> option string.

Local Abbreviation dataset := (get_dataset py_none py_str of_str ObjectId).
Local Abbreviation survey := (get_survey py_none py_str of_str ObjectId).
Local Abbreviation safe := (safe_obj py_none py_str of_str).

(** X26.  [get_dataset] and [get_survey] fail with [Invalid ID] for a
    string that is no identifier, whatever is stored; with [Dataset not
    found], respectively [Survey not found], for an identifier under which
    nothing or an empty document is stored; and otherwise return the
    stored document without [_id] and with [id] set to the text of
    [_id]. *)
Theorem lookup_outcomes (c : collection V) (id_str : string) :
  (ObjectId id_str = None ->
   dataset c id_str = inl InvalidId /\ survey c id_str = inl InvalidId)
  /\ (forall key, ObjectId id_str = Some key ->
        find_one c key = None \/ find_one c key = Some [] ->
        dataset c id_str = inl DatasetNotFound
        /\ survey c id_str = inl SurveyNotFound)
  /\ (forall key d, ObjectId id_str = Some key ->
        find_one c key = Some d -> d <> [] ->
        dataset c id_str = inr (safe d)
        /\ survey c id_str = inr (safe d)
        /\ PyDict.get string_dec "_id" (safe d) = None
        /\ PyDict.get string_dec "id" (safe d)
           = Some (of_str (py_str (doc_get py_none "_id" d)))).
Proof.
  unfold get_dataset, get_survey, oid. split; [|split].
  - intros ->. auto.
  - intros key -> [-> | ->]; auto.
  - intros key d -> -> N. destruct d as [|kv d]; [congruence|].
    split; [reflexivity|]. split; [reflexivity|].
    split; [apply safe_obj_no_private_id|].
    rewrite (safe_obj_nonempty V py_none py_str of_str (kv :: d) N), pop_get.
    destruct (string_dec "_id" "id"); [discriminate|].
    apply PyDictFacts.get_set_same.
Qed.

End Lookups.

Lemma lookup_outcomes_witness :
  get_dataset Py.PNone sample_str Py.PStr sample_oid sample_collection "nope"
  = inl InvalidId
  /\ get_survey Py.PNone sample_str Py.PStr sample_oid sample_collection
                "000000000000000000000000"
     = inl SurveyNotFound
  /\ get_dataset Py.PNone sample_str Py.PStr sample_oid sample_collection
                 "64B0C0FFEE64B0C0FFEE64B0"
     = inr (safe_obj Py.PNone sample_str Py.PStr sample_doc).
Proof.
  split; [|split].
  - apply (proj1 (lookup_outcomes _ Py.PNone sample_str Py.PStr sample_oid
                    sample_collection "nope")). reflexivity.
  - apply (proj1 (proj2 (lookup_outcomes _ Py.PNone sample_str Py.PStr sample_oid
                           sample_collection "000000000000000000000000"))
             "000000000000000000000000").
    + reflexivity.
    + now left.
  - apply (proj2 (proj2 (lookup_outcomes _ Py.PNone sample_str Py.PStr sample_oid
                           sample_collection "64B0C0FFEE64B0C0FFEE64B0"))
             "64b0c0ffee64b0c0ffee64b0" sample_doc).
    + reflexivity.
    + reflexivity.
    + discriminate.
Defined.

End LookupFacts.
